(** * PixelCNN image completion: masked convolutions, the stacked network,
      the top/bottom split, the completion merge and the notebook session.

    The notebook [pixelCNN2.ipynb] computes on float tensors.  Tensors are
    embedded as nested lists over a scalar type [T] carrying the arithmetic
    the code uses ([Scalar]: the operations alone, so that the definitions
    also run on floats).  Every law a proof relies on is a field of the
    separate class [Exact], so each theorem says which arithmetic facts it
    needs.  Real numbers and integers are exact; floats are not:
    [mul zero x = zero] fails once [x] is infinite or NaN, and the runs on
    floats at the end of the file show where that reaches the network. *)

From Stdlib Require Import String Ascii.
From Stdlib Require Import List Arith Lia Bool ZArith Reals Lra Floats.
Import ListNotations.
Local Open Scope nat_scope.
Local Open Scope list_scope.

(** ** Scalars *)

(** The arithmetic of tensor entries. *)
Class Scalar (T : Type) : Type := {
  zero : T;
  one : T;
  add : T -> T -> T;
  mul : T -> T -> T
}.

(** Arithmetic without rounding, overflow or NaN. *)
Class Exact (T : Type) {ST : Scalar T} : Type := {
  add_zero_l : forall x : T, add zero x = x;
  add_zero_r : forall x : T, add x zero = x;
  mul_zero_l : forall x : T, mul zero x = zero;
  mul_zero_r : forall x : T, mul x zero = zero;
  mul_one_r : forall x : T, mul x one = x
}.

(** [nn.ReLU] and [torch.sigmoid], applied pointwise. *)
Class Activations (T : Type) : Type := {
  relu : T -> T;
  sigmoid : T -> T
}.

#[export] Instance Z_Scalar : Scalar Z := {|
  zero := 0%Z; one := 1%Z; add := Z.add; mul := Z.mul
|}.

#[export] Instance Z_Exact : Exact Z := {|
  add_zero_l := Z.add_0_l; add_zero_r := Z.add_0_r;
  mul_zero_l := Z.mul_0_l; mul_zero_r := Z.mul_0_r;
  mul_one_r := Z.mul_1_r
|}.

#[export] Instance R_Scalar : Scalar R := {|
  zero := 0%R; one := 1%R; add := Rplus; mul := Rmult
|}.

#[export] Instance R_Exact : Exact R := {|
  add_zero_l := Rplus_0_l; add_zero_r := Rplus_0_r;
  mul_zero_l := Rmult_0_l; mul_zero_r := Rmult_0_r;
  mul_one_r := Rmult_1_r
|}.

(** max(0, x) and 1 / (1 + e^(-x)). *)
Definition Rrelu (x : R) : R := Rmax 0 x.
Definition Rsigmoid (x : R) : R := (1 / (1 + exp (- x)))%R.

#[export] Instance R_Activations : Activations R := {|
  relu := Rrelu; sigmoid := Rsigmoid
|}.

(** ** Results of fallible constructors *)

Inductive result (A : Type) : Type :=
| Ok (a : A)
| AssertionError (msg : string)
| IndexError.
Arguments Ok {A} a.
Arguments AssertionError {A} msg.
Arguments IndexError {A}.

Definition bind {A B : Type} (m : result A) (k : A -> result B) : result B :=
  match m with
  | Ok a => k a
  | AssertionError msg => AssertionError msg
  | IndexError => IndexError
  end.

(** ** List helpers for tensors *)

(** [f 0; f 1; ...; f (n-1)]. *)
Definition tabulate {A : Type} (n : nat) (f : nat -> A) : list A :=
  map f (seq 0 n).

(** Elementwise combination of two equally long lists. *)
Fixpoint zip_with {A B C : Type} (f : A -> B -> C) (l1 : list A) (l2 : list B)
  : list C :=
  match l1, l2 with
  | a :: l1', b :: l2' => f a b :: zip_with f l1' l2'
  | _, _ => []
  end.

(** Apply [f] to the element at index [k], when there is one. *)
Fixpoint update_at {A : Type} (k : nat) (f : A -> A) (l : list A) : list A :=
  match l, k with
  | [], _ => []
  | a :: r, 0 => f a :: r
  | a :: r, S k' => a :: update_at k' f r
  end.

(** [l[s:] = v] on a one-dimensional list. *)
Definition assign_from {A : Type} (s : nat) (v : A) (l : list A) : list A :=
  firstn s l ++ map (fun _ => v) (skipn s l).

(** [f 0 a0; f 1 a1; ...]: a map that also sees the index. *)
Definition imap {A B : Type} (f : nat -> A -> B) (l : list A) : list B :=
  zip_with f (seq 0 (length l)) l.

(** [f] on every element, failing as soon as one application fails. *)
Fixpoint map_opt {A B : Type} (f : A -> option B) (l : list A) : option (list B) :=
  match l with
  | [] => Some []
  | a :: l' =>
      match f a, map_opt f l' with
      | Some b, Some r => Some (b :: r)
      | _, _ => None
      end
  end.

(** [f] on the pairs of two lists of the same length; [None] when the
    lengths differ or an application fails. *)
Fixpoint zip_opt {A : Type} (f : A -> A -> option A) (l1 l2 : list A)
  : option (list A) :=
  match l1, l2 with
  | [], [] => Some []
  | a :: l1', b :: l2' =>
      match f a b, zip_opt f l1' l2' with
      | Some c, Some r => Some (c :: r)
      | _, _ => None
      end
  | _, _ => None
  end.

(** One dimension of the library's broadcasting: equal sizes are combined
    entry by entry, a size of 1 is stretched to the other size, any other
    pair of sizes is an error. *)
Definition broadcast {A : Type} (f : A -> A -> option A) (l1 l2 : list A)
  : option (list A) :=
  match l1, l2 with
  | [a], _ => map_opt (f a) l2
  | _, [b] => map_opt (fun a => f a b) l1
  | _, _ => zip_opt f l1 l2
  end.

(** f 0 + (f 1 + (... + (f (n-1) + 0))). *)
Definition big_sum {T : Type} `{Scalar T} (n : nat) (f : nat -> T) : T :=
  fold_right (fun k acc => add (f k) acc) zero (seq 0 n).

(** ** The notebook session: which global names a cell reads and binds *)

(** The cells of the notebook are run by hand, in any order, against one
    kernel whose global namespace persists.  For the question of which
    name lookup fails first, a cell is the sequence of reads ([Load]) and
    bindings ([Store]) of global names it performs, in Python's evaluation
    order (callee before arguments, arguments left to right, right-hand
    side before assignment target; the global names a called function
    reads are listed where the call is made).  Builtins ([print], [range],
    [int], [len], [super]) always resolve and are left out; library calls
    are taken to return. *)
Inductive NameOp : Type :=
| Load (x : string)
| Store (x : string).

Inductive Outcome : Type :=
| Finished
| NameError (x : string).

(** The names bound in the kernel's global namespace. *)
Definition Namespace : Type := list string.

Definition defined (g : Namespace) (x : string) : bool :=
  existsb (String.eqb x) g.

(** A failed lookup stops the cell; what it bound before stays bound. *)
Fixpoint run_ops (ops : list NameOp) (g : Namespace) : Namespace * Outcome :=
  match ops with
  | [] => (g, Finished)
  | Load x :: rest => if defined g x then run_ops rest g else (g, NameError x)
  | Store x :: rest => run_ops rest (x :: g)
  end.

Inductive Cell : Type :=
| Imports     (* import torch ... import numpy as np *)
| Classes     (* class MaskedConv2d, class PixelCNN *)
| Data        (* device, dataset, loaders, sample plot *)
| Split       (* def split_top_bottom and its demonstration *)
| Train       (* model, optimizer, criterion, the training loop *)
| Inference   (* def complete_images; complete_images(model, test_loader) *)
| Save.       (* torch.save(model.state_dict(), "pixelcnn_model.pth") *)

Local Open Scope string_scope.

(** The global reads of [PixelCNN.__init__] with its default arguments. *)
Definition PixelCNN_init_ops : list NameOp :=
  [ Load "nn";                       (* nn.ModuleList() *)
    Load "MaskedConv2d"; Load "nn";  (* first layer, nn.ReLU() *)
    Load "MaskedConv2d"; Load "nn";  (* the loop body of the hidden layers *)
    Load "nn" ].                     (* nn.Conv2d(...) *)

(** The global reads of [PixelCNN.forward]; the layers read none. *)
Definition PixelCNN_forward_ops : list NameOp :=
  [ Load "torch" ].                  (* torch.sigmoid(x) *)

(** The global reads of the body of [complete_images]; [model],
    [test_loader] and [num_samples] are its parameters. *)
Definition complete_images_ops : list NameOp :=
  [ Load "torch";                    (* torch.no_grad() *)
    Load "device";                   (* images.to(device) *)
    Load "split_top_bottom" ]        (* split_top_bottom(images) *)
  ++ PixelCNN_forward_ops ++         (* model(top_half) *)
  [ Load "plt";                      (* plt.subplots(...) *)
    Load "plt" ].                    (* plt.show() *)

Definition cell_ops (c : Cell) : list NameOp :=
  match c with
  | Imports =>
      [ Store "torch"; Store "nn"; Store "optim"; Store "transforms";
        Store "datasets"; Store "F"; Store "DataLoader"; Store "random_split";
        Store "tqdm"; Store "plt"; Store "np" ]
  | Classes =>
      [ Load "nn"; Store "MaskedConv2d";    (* class MaskedConv2d(nn.Conv2d) *)
        Load "nn"; Store "PixelCNN" ]       (* class PixelCNN(nn.Module) *)
  | Data =>
      [ Load "torch"; Load "torch"; Store "device";
        Load "device";                                  (* print(...) *)
        Load "transforms"; Load "transforms"; Store "transform";
        Load "datasets"; Load "transform"; Store "dataset";
        Load "dataset"; Store "train_size";
        Load "dataset"; Load "train_size"; Store "test_size";
        Load "random_split"; Load "dataset"; Load "train_size"; Load "test_size";
        Store "train_dataset"; Store "test_dataset";
        Load "DataLoader"; Load "train_dataset"; Store "train_loader";
        Load "DataLoader"; Load "test_dataset"; Store "test_loader";
        Load "plt"; Load "train_dataset"; Load "plt"; Load "plt" ]
  | Split =>
      [ Store "split_top_bottom";
        Load "train_dataset"; Store "sample_image"; Store "_";
        Load "split_top_bottom"; Load "sample_image";
        Store "top_half"; Store "bottom_half";
        Load "plt"; Store "fig"; Store "ax";
        Load "ax"; Load "sample_image"; Load "ax"; Load "ax";
        Load "ax"; Load "top_half"; Load "ax"; Load "ax";
        Load "ax"; Load "bottom_half"; Load "ax"; Load "ax";
        Load "plt" ]
  | Train =>
      [ Load "PixelCNN" ] ++ PixelCNN_init_ops ++
      [ Load "device"; Store "model";
        Load "optim"; Load "model"; Store "optimizer";
        Load "nn"; Store "criterion";
        Store "epochs";
        Load "epochs"; Store "epoch";                   (* for epoch in range(epochs) *)
        Load "model";                                   (* model.train() *)
        Load "tqdm"; Load "train_loader"; Load "epoch"; Load "epochs"; Store "loop";
        Load "loop"; Store "images"; Store "_";         (* for images, _ in loop *)
        Load "images"; Load "device"; Store "images";
        Load "split_top_bottom"; Load "images"; Store "top_half"; Store "bottom_half";
        Load "model"; Load "top_half" ] ++ PixelCNN_forward_ops ++
      [ Store "outputs";
        Load "criterion"; Load "outputs"; Load "bottom_half"; Store "loss";
        Load "optimizer"; Load "loss"; Load "optimizer";
        Load "loop"; Load "loss" ]
  | Inference =>
      [ Store "complete_images";                        (* def complete_images *)
        Load "complete_images"; Load "model"; Load "test_loader" ]
      ++ complete_images_ops
  | Save =>
      [ Load "torch"; Load "model" ]                    (* torch.save(model.state_dict(), ...) *)
  end.

Local Close Scope string_scope.

Definition run_cell (g : Namespace) (c : Cell) : Namespace * Outcome :=
  run_ops (cell_ops c) g.

(** The namespace after running the cells [cs] in order, each to its end
    or to its first fault. *)
Definition run_session (cs : list Cell) (g : Namespace) : Namespace :=
  fold_left (fun g c => fst (run_cell g c)) cs g.

(** A freshly started kernel binds none of the notebook's names. *)
Definition fresh_kernel : Namespace := [].

(** The names a sequence of operations binds. *)
Definition stores (ops : list NameOp) : list string :=
  flat_map (fun op => match op with Store x => [x] | Load _ => [] end) ops.

Definition is_Imports (c : Cell) : bool :=
  match c with Imports => true | _ => false end.

Section Model.

Variable T : Type.
Context {ST : Scalar T} {EX : Exact T} {AT : Activations T}.

(** ** Tensors: nested lists, read with zero outside their bounds *)

Definition Tensor1 : Type := list T.
Definition Tensor2 : Type := list Tensor1.
Definition Tensor3 : Type := list Tensor2.
Definition Tensor4 : Type := list Tensor3.

Definition get1 (v : Tensor1) (j : nat) : T := nth j v zero.
Definition get2 (g : Tensor2) (i j : nat) : T := get1 (nth i g []) j.
Definition get3 (x : Tensor3) (ch i j : nat) : T := get2 (nth ch x []) i j.
Definition get4 (x : Tensor4) (n ch i j : nat) : T := get3 (nth n x []) ch i j.

Definition in_range2 (g : Tensor2) (i j : nat) : Prop :=
  i < length g /\ j < length (nth i g []).
Definition in_range3 (x : Tensor3) (ch i j : nat) : Prop :=
  ch < length x /\ in_range2 (nth ch x []) i j.
Definition in_range4 (x : Tensor4) (n ch i j : nat) : Prop :=
  n < length x /\ in_range3 (nth n x []) ch i j.

Definition map3 (f : T -> T) (x : Tensor3) : Tensor3 := map (map (map f)) x.
Definition map4 (f : T -> T) (x : Tensor4) : Tensor4 := map (map3 f) x.

Definition zip4 (f : T -> T -> T) (a b : Tensor4) : Tensor4 :=
  zip_with (zip_with (zip_with (zip_with f))) a b.

(** Height and width of an image (channels x rows x columns). *)
Definition height (x : Tensor3) : nat := length (hd [] x).
Definition width (x : Tensor3) : nat := length (hd [] (hd [] x)).

(** ** nn.Conv2d *)

(** The attributes of [nn.Conv2d] the notebook sets; stride, dilation and
    groups keep their defaults (1) and the padding is zero padding. *)
Record Conv2d : Type := {
  in_channels : nat;
  out_channels : nat;
  kernel_size : nat * nat;
  padding : nat * nat;
  weight : Tensor4;
  bias : Tensor1
}.

(** [nn.Conv2d.__init__]: parameters of shape
    (out_channels, in_channels, kH, kW) and (out_channels), filled by the
    library's random initialiser, here [init_w] and [init_b]. *)
Definition Conv2d_init (cin cout : nat) (ks pad : nat * nat)
    (init_w : nat -> nat -> nat -> nat -> T) (init_b : nat -> T) : Conv2d :=
  {| in_channels := cin;
     out_channels := cout;
     kernel_size := ks;
     padding := pad;
     weight := tabulate cout (fun o => tabulate cin (fun ch =>
                 tabulate (fst ks) (fun i => tabulate (snd ks) (fun j =>
                   init_w o ch i j))));
     bias := tabulate cout init_b |}.

Definition set_weight (c : Conv2d) (w : Tensor4) : Conv2d :=
  {| in_channels := in_channels c;
     out_channels := out_channels c;
     kernel_size := kernel_size c;
     padding := padding c;
     weight := w;
     bias := bias c |}.

Definition set_params (c : Conv2d) (w : Tensor4) (b : Tensor1) : Conv2d :=
  {| in_channels := in_channels c;
     out_channels := out_channels c;
     kernel_size := kernel_size c;
     padding := padding c;
     weight := w;
     bias := b |}.

(** The zero-padded input read at padded coordinates (i, j). *)
Definition pad_get (x : Tensor3) (pad : nat * nat) (ch i j : nat) : T :=
  if (fst pad <=? i) && (snd pad <=? j)
  then get3 x ch (i - fst pad) (j - snd pad)
  else zero.

(** One output pixel of the cross-correlation [F.conv2d] computes. *)
Definition conv_pixel (c : Conv2d) (x : Tensor3) (o r col : nat) : T :=
  add (big_sum (in_channels c) (fun ch =>
         big_sum (fst (kernel_size c)) (fun i =>
           big_sum (snd (kernel_size c)) (fun j =>
             mul (get4 (weight c) o ch i j)
                 (pad_get x (padding c) ch (r + i) (col + j))))))
      (get1 (bias c) o).

(** Output extent along one axis: n + 2p - k + 1. *)
Definition out_dim (n p k : nat) : nat := n + 2 * p + 1 - k.

Definition Conv2d_forward_image (c : Conv2d) (x : Tensor3) : Tensor3 :=
  tabulate (out_channels c) (fun o =>
    tabulate (out_dim (height x) (fst (padding c)) (fst (kernel_size c))) (fun r =>
      tabulate (out_dim (width x) (snd (padding c)) (snd (kernel_size c))) (fun col =>
        conv_pixel c x o r col))).

(** [nn.Conv2d.forward] on a batch.  The library rejects an input whose
    channel count differs from [in_channels] or whose padded extent is
    smaller than the kernel ([Conv2d_accepts] below is its test); on such
    inputs this total function reads the missing channels as zero and
    returns no rows. *)
Definition Conv2d_forward (c : Conv2d) (x : Tensor4) : Tensor4 :=
  map (Conv2d_forward_image c) x.

(** The library's test on an image of [C] channels, [H] rows and [W]
    columns: when it fails, [nn.Conv2d.forward] raises RuntimeError. *)
Definition Conv2d_accepts (c : Conv2d) (C H W : nat) : bool :=
  (C =? in_channels c) &&
  (fst (kernel_size c) <=? H + 2 * fst (padding c)) &&
  (snd (kernel_size c) <=? W + 2 * snd (padding c)).

(** ** MaskedConv2d *)

(** The subclass adds the registered buffer [mask] to the convolution. *)
Record MaskedConv2d : Type := {
  conv : Conv2d;
  mask : Tensor4
}.

(** [m.fill_(v)]. *)
Definition fill_ (v : T) (m : Tensor4) : Tensor4 := map4 (fun _ => v) m.

(** [g[a:] = v] on the rows of one kernel or one image channel. *)
Definition set_rows_from (a : nat) (v : T) (g : Tensor2) : Tensor2 :=
  firstn a g ++ map (map (fun _ => v)) (skipn a g).

(** [g[:a] = v] on the rows of one image channel. *)
Definition set_rows_upto (a : nat) (v : T) (g : Tensor2) : Tensor2 :=
  map (map (fun _ => v)) (firstn a g) ++ skipn a g.

(** [m[:, :, h, s:] = v]; the integer index [h] must lie inside the third
    dimension, of size [H], or Python raises IndexError. *)
Definition assign_row_tail (H h s : nat) (v : T) (m : Tensor4) : result Tensor4 :=
  if h <? H
  then Ok (map (map (update_at h (assign_from s v))) m)
  else IndexError.

(** [m[:, :, a:] = v]. *)
Definition assign_rows_from (a : nat) (v : T) (m : Tensor4) : Tensor4 :=
  map (map (set_rows_from a v)) m.

(** [mask_type in ['A', 'B']]. *)
Definition mask_type_ok (mask_type : string) : bool :=
  existsb (String.eqb mask_type) ["A"%string; "B"%string].

(** The integer value of [(mask_type == 'B')]. *)
Definition is_B (mask_type : string) : nat :=
  if String.eqb mask_type "B" then 1 else 0.

(** [MaskedConv2d.__init__]: the convolution is built first, then the mask
    type is asserted, then the mask is cloned from the weights, filled with
    ones and zeroed on the centre row from column W//2 + (mask_type == 'B')
    and on every row below the centre.  The clone is a tensor of its own:
    later writes to the weights do not reach it. *)
Definition MaskedConv2d_init (cin cout : nat) (ks pad : nat * nat)
    (mask_type : string)
    (init_w : nat -> nat -> nat -> nat -> T) (init_b : nat -> T)
  : result MaskedConv2d :=
  let c := Conv2d_init cin cout ks pad init_w init_b in
  if negb (mask_type_ok mask_type)
  then AssertionError "Mask type must be 'A' or 'B'"
  else
    let m0 := weight c in
    let H := fst (kernel_size c) in
    let W := snd (kernel_size c) in
    let m1 := fill_ one m0 in
    bind (assign_row_tail H (H / 2) (W / 2 + is_B mask_type) zero m1) (fun m2 =>
    Ok {| conv := c; mask := assign_rows_from (H / 2 + 1) zero m2 |}).

(** [MaskedConv2d.forward]: [self.weight.data *= self.mask] rewrites the
    stored weights, then the inherited convolution runs on them. *)
Definition MaskedConv2d_forward (L : MaskedConv2d) (x : Tensor4)
  : MaskedConv2d * Tensor4 :=
  let c := set_weight (conv L) (zip4 mul (weight (conv L)) (mask L)) in
  ({| conv := c; mask := mask L |}, Conv2d_forward c x).

(** ** PixelCNN *)

(** The members of [self.layers]. *)
Inductive Layer : Type :=
| LMaskedConv2d (L : MaskedConv2d)
| LReLU
| LConv2d (c : Conv2d).

Definition PixelCNN : Type := list Layer.

(** The loop [for _ in range(n)] appending a type-B layer and a ReLU;
    [idx] numbers the layer for the initialiser. *)
Fixpoint hidden_layers (hidden_channels kernel_size n idx : nat)
    (init_w : nat -> nat -> nat -> nat -> nat -> T) (init_b : nat -> nat -> T)
  : result (list Layer) :=
  match n with
  | 0 => Ok []
  | S n' =>
      bind (MaskedConv2d_init hidden_channels hidden_channels
              (kernel_size, kernel_size) (kernel_size / 2, kernel_size / 2)
              "B" (init_w idx) (init_b idx)) (fun L =>
      bind (hidden_layers hidden_channels kernel_size n' (S idx) init_w init_b)
        (fun rest => Ok (LMaskedConv2d L :: LReLU :: rest)))
  end.

(** [PixelCNN.__init__]. *)
Definition PixelCNN_init (input_channels hidden_channels kernel_size num_layers : nat)
    (init_w : nat -> nat -> nat -> nat -> nat -> T) (init_b : nat -> nat -> T)
  : result PixelCNN :=
  bind (MaskedConv2d_init input_channels hidden_channels
          (kernel_size, kernel_size) (kernel_size / 2, kernel_size / 2)
          "A" (init_w 0) (init_b 0)) (fun first =>
  bind (hidden_layers hidden_channels kernel_size (num_layers - 2) 1 init_w init_b)
    (fun hidden =>
  Ok ([LMaskedConv2d first; LReLU] ++ hidden ++
      [LConv2d (Conv2d_init hidden_channels input_channels (1, 1) (0, 0)
                  (init_w (S (num_layers - 2))) (init_b (S (num_layers - 2))))]))).

Definition Layer_forward (l : Layer) (x : Tensor4) : Layer * Tensor4 :=
  match l with
  | LMaskedConv2d L =>
      let (L', y) := MaskedConv2d_forward L x in (LMaskedConv2d L', y)
  | LReLU => (LReLU, map4 relu x)
  | LConv2d c => (LConv2d c, Conv2d_forward c x)
  end.

(** [for layer in self.layers: x = layer(x)]. *)
Fixpoint layers_forward (ls : list Layer) (x : Tensor4) : list Layer * Tensor4 :=
  match ls with
  | [] => ([], x)
  | l :: rest =>
      let (l', y) := Layer_forward l x in
      let (rest', z) := layers_forward rest y in
      (l' :: rest', z)
  end.

(** [PixelCNN.forward]: the layers in order, then [torch.sigmoid]; the
    first component is the model afterwards (masked layers have rewritten
    their weights). *)
Definition PixelCNN_forward (model : PixelCNN) (x : Tensor4) : PixelCNN * Tensor4 :=
  let (model', y) := layers_forward model x in
  (model', map4 sigmoid y).

(** ** Top/bottom split and tensor addition *)

(** [split_top_bottom]: rows 14.. are zeroed in the first copy, rows ..13
    in the second. *)
Definition split_top_bottom (images : Tensor4) : Tensor4 * Tensor4 :=
  let top_half := images in
  let bottom_half := images in
  let top_half := map (map (set_rows_from 14 zero)) top_half in
  let bottom_half := map (map (set_rows_upto 14 zero)) bottom_half in
  (top_half, bottom_half).

(** [a + b] on two batches, with the library's broadcasting in each of
    the four dimensions; [None] is its RuntimeError on sizes that do not
    match.  (An empty list carries no inner sizes, so below an empty
    dimension there is nothing left to compare.) *)
Definition tensor_add (a b : Tensor4) : option Tensor4 :=
  broadcast (broadcast (broadcast (broadcast (fun u v => Some (add u v))))) a b.

(** ** Training *)

(** What one [optimizer.step()] does to one parameterised layer: every
    weight and bias entry is replaced by a function of its index and old
    value (Adam's elementwise update, whatever the gradients were). *)
Record Update : Type := {
  upd_weight : nat -> nat -> nat -> nat -> T -> T;
  upd_bias : nat -> T -> T
}.

Definition imap4 (f : nat -> nat -> nat -> nat -> T -> T) (w : Tensor4) : Tensor4 :=
  imap (fun o => imap (fun ch => imap (fun i => imap (fun j => f o ch i j)))) w.

Definition Conv2d_step (u : Update) (c : Conv2d) : Conv2d :=
  set_params c (imap4 (upd_weight u) (weight c)) (imap (upd_bias u) (bias c)).

Definition Layer_step (u : Update) (l : Layer) : Layer :=
  match l with
  | LMaskedConv2d L => LMaskedConv2d {| conv := Conv2d_step u (conv L); mask := mask L |}
  | LReLU => LReLU
  | LConv2d c => LConv2d (Conv2d_step u c)
  end.

(** [optimizer.step()] over [model.parameters()]: buffers are not
    parameters. *)
Definition optimizer_step (u : nat -> Update) (model : PixelCNN) : PixelCNN :=
  imap (fun k l => Layer_step (u k) l) model.

(** One iteration of the inner training loop. *)
Definition train_batch (model : PixelCNN) (images : Tensor4) (u : nat -> Update)
  : PixelCNN :=
  let (top_half, bottom_half) := split_top_bottom images in
  let (model', outputs) := PixelCNN_forward model top_half in
  optimizer_step u model'.

(** The training loop over all mini-batches of all epochs, each paired with
    the update its optimizer step performs. *)
Fixpoint training_loop (model : PixelCNN) (batches : list (Tensor4 * (nat -> Update)))
  : PixelCNN :=
  match batches with
  | [] => model
  | (images, u) :: rest => training_loop (train_batch model images u) rest
  end.

(** Everything the notebook does to a model after constructing it. *)
Inductive Event : Type :=
| EvForward (x : Tensor4)
| EvOptimizerStep (u : nat -> Update).

Definition run_event (model : PixelCNN) (e : Event) : PixelCNN :=
  match e with
  | EvForward x => fst (PixelCNN_forward model x)
  | EvOptimizerStep u => optimizer_step u model
  end.

Definition run_events (model : PixelCNN) (es : list Event) : PixelCNN :=
  fold_left run_event es model.

(** The masks of the masked layers, in layer order. *)
Definition net_masks (model : PixelCNN) : list Tensor4 :=
  flat_map (fun l => match l with LMaskedConv2d L => [mask L] | _ => [] end) model.

(** The kernel positions the specification says are zeroed: i > H/2, or
    i = H/2 and j >= W/2 + b, with b = 0 for the strict mask and 1 for the
    relaxed one. *)
Definition spec_zeroed (H W b i j : nat) : bool :=
  (H / 2 <? i) || ((i =? H / 2) && (W / 2 + b <=? j)).

(** The mask tensor the constructor stores, as a function of the cloned
    weights [w], the kernel extent and the column offset [b]. *)
Definition built_mask (w : Tensor4) (H W b : nat) : Tensor4 :=
  assign_rows_from (H / 2 + 1) zero
    (map (map (update_at (H / 2) (assign_from (W / 2 + b) zero))) (fill_ one w)).

(** Every entry of a four-dimensional tensor satisfies [P]. *)
Definition all4 (P : T -> Prop) (t : Tensor4) : Prop :=
  Forall (Forall (Forall (Forall P))) t.

(** A layer with its parameters erased: what is left is the layer kind,
    the convolution geometry and the mask. *)
Definition erase_params (l : Layer) : Layer :=
  match l with
  | LMaskedConv2d L =>
      LMaskedConv2d {| conv := set_params (conv L) [] []; mask := mask L |}
  | LReLU => LReLU
  | LConv2d c => LConv2d (set_params c [] [])
  end.

(** The state of a layer after forward calls on the inputs [xs]. *)
Definition after_forwards (L : MaskedConv2d) (xs : list Tensor4) : MaskedConv2d :=
  fold_left (fun L x => fst (MaskedConv2d_forward L x)) xs L.

(** ** Raster order and agreement of inputs *)

(** Position (i, j) comes before (r, c) in row-major order: strictly for
    b = 0, at or before for b = 1. *)
Definition raster_before (b r c i j : nat) : Prop :=
  i < r \/ (i = r /\ j < c + b).

(** The row lengths of every channel of an image. *)
Definition shape3 (x : Tensor3) : list (list nat) := map (map (@length T)) x.

(** Two images of one shape that hold the same values at the positions
    selected by [P]. *)
Definition agree (P : nat -> nat -> Prop) (x y : Tensor3) : Prop :=
  shape3 x = shape3 y /\
  forall ch i j, P i j -> get3 x ch i j = get3 y ch i j.

(** A convolution whose output at (r, c) reads no input after (r, c): its
    padding centres a kernel of extent H x W and the weights inside its
    kernel window are zero on the positions [spec_zeroed] lists. *)
Definition causal (b : nat) (c : Conv2d) : Prop :=
  exists H W,
    padding c = (H / 2, W / 2) /\
    forall o ch i j,
      i < fst (kernel_size c) -> j < snd (kernel_size c) ->
      spec_zeroed H W b i j = true -> get4 (weight c) o ch i j = zero.

(** A masked layer whose mask is zero on the listed positions and whose
    padding centres the kernel. *)
Definition mask_causal (b : nat) (L : MaskedConv2d) : Prop :=
  exists H W,
    padding (conv L) = (H / 2, W / 2) /\
    forall o ch i j, spec_zeroed H W b i j = true -> get4 (mask L) o ch i j = zero.

Definition layer_relaxed (l : Layer) : Prop :=
  match l with
  | LMaskedConv2d L => mask_causal 1 L
  | LReLU => True
  | LConv2d c => kernel_size c = (1, 1) /\ padding c = (0, 0)
  end.

Definition layer_strict (l : Layer) : Prop :=
  match l with
  | LMaskedConv2d L => mask_causal 0 L
  | _ => False
  end.

(** The shape of the network [PixelCNN.__init__] builds: a strict masked
    layer first, then relaxed masked layers, ReLUs and 1x1 convolutions. *)
Definition net_ok (model : PixelCNN) : Prop :=
  match model with
  | [] => False
  | l :: rest => layer_strict l /\ Forall layer_relaxed rest
  end.

(** What one layer computes on one image of the batch. *)
Definition Layer_image (l : Layer) (x : Tensor3) : Tensor3 :=
  match l with
  | LMaskedConv2d L =>
      Conv2d_forward_image (set_weight (conv L) (zip4 mul (weight (conv L)) (mask L))) x
  | LReLU => map3 relu x
  | LConv2d c => Conv2d_forward_image c x
  end.

Definition layers_image (ls : list Layer) (x : Tensor3) : Tensor3 :=
  fold_left (fun x l => Layer_image l x) ls x.

(** ** The inference routine *)

(** A layer, and the layers of a network in turn, accept an image: no
    convolution raises RuntimeError on it. *)
Definition Layer_accepts (l : Layer) (x : Tensor3) : bool :=
  match l with
  | LMaskedConv2d L => Conv2d_accepts (conv L) (length x) (height x) (width x)
  | LReLU => true
  | LConv2d c => Conv2d_accepts c (length x) (height x) (width x)
  end.

Fixpoint layers_accept (ls : list Layer) (x : Tensor3) : bool :=
  match ls with
  | [] => true
  | l :: rest => Layer_accepts l x && layers_accept rest (Layer_image l x)
  end.

(** The body of the loop of [complete_images] on one batch, up to the
    plotting: the tensor [completed_images] and the model after the
    forward pass; [None] when a convolution or the addition raises
    RuntimeError. *)
Definition complete_batch (model : PixelCNN) (images : Tensor4)
  : option (PixelCNN * Tensor4) :=
  let (top_half, _) := split_top_bottom images in
  if forallb (layers_accept model) top_half then
    let (model', predicted_bottom_half) := PixelCNN_forward model top_half in
    match tensor_add top_half predicted_bottom_half with
    | Some completed_images => Some (model', completed_images)
    | None => None
    end
  else None.

(** What a call of [complete_images] comes to: the figure it shows, one
    column (original, given top half, completed) per sample, with the
    model afterwards; nothing, when the loader yields no batch; or the
    exception that ends it. *)
Inductive Completion : Type :=
| Shown (model' : PixelCNN) (columns : list (Tensor3 * Tensor3 * Tensor3))
| NotShown
| RaisesRuntimeError
| RaisesValueError
| RaisesIndexError
| RaisesTypeError.

(** [imshow] on [img.squeeze()]: the dimensions of size 1 are dropped, and
    what is left must have two dimensions, or three of which the last is
    3 or 4 (an RGB or RGBA image); otherwise it raises TypeError. *)
Definition imshow_accepts (img : Tensor3) : bool :=
  match filter (fun d => negb (d =? 1)) [length img; height img; width img] with
  | [_; _] => true
  | [_; _; w] => (w =? 3) || (w =? 4)
  | _ => false
  end.

(** [imshow(x[i].squeeze())]: an index past the batch raises IndexError. *)
Definition show (x : Tensor4) (i : nat) : Tensor3 + Completion :=
  match nth_error x i with
  | None => inr RaisesIndexError
  | Some img => if imshow_accepts img then inl img else inr RaisesTypeError
  end.

(** The display loop over the column indices: column [i] shows
    [images[i]], [top_half[i]] and [completed_images[i]], in this order,
    and the first exception ends the loop. *)
Fixpoint display_columns (model' : PixelCNN) (images top_half completed_images : Tensor4)
    (columns : list nat) : Completion :=
  match columns with
  | [] => Shown model' []
  | i :: rest =>
      match show images i, show top_half i, show completed_images i with
      | inl original, inl given, inl completed =>
          match display_columns model' images top_half completed_images rest with
          | Shown m shown => Shown m ((original, given, completed) :: shown)
          | raised => raised
          end
      | inr raised, _, _ => raised
      | _, inr raised, _ => raised
      | _, _, inr raised => raised
      end
  end.

(** [complete_images]: the loop breaks after the first batch of the
    loader.  [plt.subplots(3, num_samples)] rejects zero columns with
    ValueError and hands back a one-dimensional array of axes for a single
    column, on which [axes[0, i]] raises IndexError. *)
Definition complete_images (model : PixelCNN) (test_loader : list Tensor4)
    (num_samples : nat) : Completion :=
  match test_loader with
  | [] => NotShown
  | images :: _ =>
      match complete_batch model images with
      | None => RaisesRuntimeError
      | Some (model', completed_images) =>
          match num_samples with
          | 0 => RaisesValueError
          | 1 => RaisesIndexError
          | _ => display_columns model' images (fst (split_top_bottom images))
                   completed_images (seq 0 num_samples)
          end
      end
  end.

(** * Properties *)

(** ** Lists *)

Lemma length_tabulate {A : Type} (n : nat) (f : nat -> A) :
  length (tabulate n f) = n.
Proof. unfold tabulate. now rewrite length_map, length_seq. Qed.

Lemma nth_tabulate {A : Type} (n : nat) (f : nat -> A) (k : nat) (d : A) :
  k < n -> nth k (tabulate n f) d = f k.
Proof.
  intros Hk. unfold tabulate.
  rewrite (nth_indep _ d (f 0)) by now rewrite length_map, length_seq.
  rewrite map_nth, seq_nth by assumption. reflexivity.
Qed.

Lemma nth_tabulate_out {A : Type} (n : nat) (f : nat -> A) (k : nat) (d : A) :
  n <= k -> nth k (tabulate n f) d = d.
Proof. intros Hk. apply nth_overflow. now rewrite length_tabulate. Qed.

Lemma nth_map_default {A B : Type} (f : A -> B) (l : list A) (k : nat) (d : A) (d' : B) :
  f d = d' -> nth k (map f l) d' = f (nth k l d).
Proof. intros <-. apply map_nth. Qed.

Lemma nth_zip_with {A B C : Type} (f : A -> B -> C) (d1 : A) (d2 : B) (d : C) :
  (forall b, f d1 b = d) -> (forall a, f a d2 = d) ->
  forall l1 l2 k, nth k (zip_with f l1 l2) d = f (nth k l1 d1) (nth k l2 d2).
Proof.
  intros H1 H2. induction l1 as [|a l1 IH]; intros l2 k.
  - simpl. destruct k; now rewrite H1.
  - destruct l2 as [|b l2].
    + simpl. destruct k; now rewrite H2.
    + destruct k; simpl; [reflexivity | apply IH].
Qed.

Lemma zip_with_nil_r {A B C : Type} (f : A -> B -> C) (l : list A) :
  zip_with f l [] = [].
Proof. now destruct l. Qed.

Lemma nth_update_at {A : Type} (f : A -> A) (d : A) :
  f d = d ->
  forall l h i, nth i (update_at h f l) d = if i =? h then f (nth i l d) else nth i l d.
Proof.
  intros Hd. induction l as [|a l IH]; intros h i.
  - simpl. destruct i, h; simpl; try rewrite Hd; try reflexivity;
      destruct (i =? h); reflexivity.
  - destruct h, i; simpl; try reflexivity. apply IH.
Qed.

Lemma big_sum_ext (n : nat) (f g : nat -> T) :
  (forall k, k < n -> f k = g k) -> big_sum n f = big_sum n g.
Proof.
  intros Hfg. unfold big_sum.
  assert (Hin : forall k, In k (seq 0 n) -> f k = g k).
  { intros k Hk. apply in_seq in Hk. apply Hfg. lia. }
  induction (seq 0 n) as [|a l IH]; simpl; [reflexivity|].
  rewrite (Hin a) by now left.
  rewrite IH; [reflexivity|]. intros k Hk. apply Hin. now right.
Qed.

(** ** Reading tensors *)

Lemma get1_nil (j : nat) : get1 [] j = zero.
Proof. unfold get1. now destruct j. Qed.

Lemma get2_nil (i j : nat) : get2 [] i j = zero.
Proof. unfold get2. destruct i; apply get1_nil. Qed.

Lemma get3_nil (ch i j : nat) : get3 [] ch i j = zero.
Proof. unfold get3. destruct ch; apply get2_nil. Qed.

Lemma get1_const_zero (row : Tensor1) (j : nat) :
  get1 (map (fun _ => zero) row) j = zero.
Proof.
  unfold get1. revert j. induction row as [|a row IH]; intros [|j]; simpl; auto.
Qed.

Lemma get2_const_zero (g : Tensor2) (i j : nat) :
  get2 (map (map (fun _ => zero)) g) i j = zero.
Proof.
  unfold get2. rewrite (nth_map_default _ g i []) by reflexivity.
  apply get1_const_zero.
Qed.

Lemma get1_assign_from (s : nat) (row : Tensor1) (j : nat) :
  get1 (assign_from s zero row) j = if s <=? j then zero else get1 row j.
Proof.
  unfold assign_from, get1. revert s j.
  induction row as [|a row IH]; intros s j.
  - rewrite firstn_nil, skipn_nil. cbn [app map].
    destruct (s <=? j); destruct j; reflexivity.
  - destruct s as [|s].
    + simpl firstn. simpl skipn. rewrite app_nil_l. apply (get1_const_zero (a :: row)).
    + destruct j as [|j]; simpl; [reflexivity|]. apply IH.
Qed.

Lemma get2_set_rows_from (a : nat) (g : Tensor2) (i j : nat) :
  get2 (set_rows_from a zero g) i j = if a <=? i then zero else get2 g i j.
Proof.
  unfold set_rows_from. revert a i.
  induction g as [|row g IH]; intros a i.
  - rewrite firstn_nil, skipn_nil. cbn [app map]. rewrite !get2_nil.
    destruct (a <=? i); reflexivity.
  - destruct a as [|a].
    + simpl firstn. simpl skipn. rewrite app_nil_l. apply get2_const_zero.
    + destruct i as [|i]; [reflexivity|].
      specialize (IH a i). unfold get2 in *. simpl. exact IH.
Qed.

Lemma get2_set_rows_upto (a : nat) (g : Tensor2) (i j : nat) :
  get2 (set_rows_upto a zero g) i j = if i <? a then zero else get2 g i j.
Proof.
  unfold set_rows_upto. revert a i.
  induction g as [|row g IH]; intros a i.
  - rewrite firstn_nil, skipn_nil. cbn [app map]. rewrite !get2_nil.
    destruct (i <? a); reflexivity.
  - destruct a as [|a]; [reflexivity|].
    destruct i as [|i].
    + unfold get2. simpl. apply get1_const_zero.
    + specialize (IH a i). unfold get2 in *. simpl. exact IH.
Qed.

Lemma assign_from_nil {A : Type} (s : nat) (v : A) : assign_from s v [] = [].
Proof. unfold assign_from. now rewrite firstn_nil, skipn_nil. Qed.

Lemma get2_update_row (h s : nat) (g : Tensor2) (i j : nat) :
  get2 (update_at h (assign_from s zero) g) i j =
  if (i =? h) && (s <=? j) then zero else get2 g i j.
Proof.
  unfold get2. rewrite nth_update_at by apply assign_from_nil.
  destruct (i =? h); simpl; [|reflexivity].
  apply get1_assign_from.
Qed.

Lemma get4_map_kernels (F : Tensor2 -> Tensor2) (m : Tensor4) (o ch i j : nat) :
  F [] = [] ->
  get4 (map (map F) m) o ch i j = get2 (F (nth ch (nth o m []) [])) i j.
Proof.
  intros HF. unfold get4, get3.
  rewrite (nth_map_default (map F) m o []) by reflexivity.
  now rewrite (nth_map_default F _ ch []) by assumption.
Qed.

Lemma get4_tabulate (O I H W : nat) (f : nat -> nat -> nat -> nat -> T) (o ch i j : nat) :
  o < O -> ch < I -> i < H -> j < W ->
  get4 (tabulate O (fun o => tabulate I (fun ch =>
          tabulate H (fun i => tabulate W (fun j => f o ch i j))))) o ch i j
  = f o ch i j.
Proof.
  intros Ho Hch Hi Hj. unfold get4, get3, get2, get1.
  now rewrite !nth_tabulate by assumption.
Qed.

Lemma get4_fill_tabulate (v : T) (O I H W : nat) (f : nat -> nat -> nat -> nat -> T)
    (o ch i j : nat) :
  o < O -> ch < I -> i < H -> j < W ->
  get4 (fill_ v (tabulate O (fun o => tabulate I (fun ch =>
          tabulate H (fun i => tabulate W (fun j => f o ch i j)))))) o ch i j
  = v.
Proof.
  intros Ho Hch Hi Hj. unfold fill_, map4, map3, tabulate.
  rewrite !map_map.
  change (get4 (tabulate O (fun o => map (map (map (fun _ => v)))
            (map (fun ch => map (fun i => map (fun j => f o ch i j) (seq 0 W)) (seq 0 H)) (seq 0 I)))) o ch i j = v).
  unfold get4, get3, get2, get1.
  rewrite nth_tabulate by assumption. rewrite map_map.
  change (nth j (nth i (nth ch (tabulate I (fun ch => map (map (fun _ => v))
            (map (fun i => map (fun j => f o ch i j) (seq 0 W)) (seq 0 H)))) []) []) zero = v).
  rewrite nth_tabulate by assumption. rewrite map_map.
  change (nth j (nth i (tabulate H (fun i => map (fun _ => v)
            (map (fun j => f o ch i j) (seq 0 W)))) []) zero = v).
  rewrite nth_tabulate by assumption. rewrite map_map.
  change (nth j (tabulate W (fun _ => v)) zero = v).
  now rewrite nth_tabulate.
Qed.

(** ** The constructor and its mask *)

Lemma mask_type_ok_iff (mask_type : string) :
  mask_type_ok mask_type = true <-> mask_type = "A"%string \/ mask_type = "B"%string.
Proof.
  unfold mask_type_ok. simpl. rewrite !orb_true_iff, !String.eqb_eq.
  intuition discriminate.
Qed.

Lemma MaskedConv2d_init_Ok (cin cout H W : nat) (pad : nat * nat) (mask_type : string)
    (init_w : nat -> nat -> nat -> nat -> T) (init_b : nat -> T) :
  mask_type_ok mask_type = true -> 0 < H ->
  MaskedConv2d_init cin cout (H, W) pad mask_type init_w init_b =
  Ok {| conv := Conv2d_init cin cout (H, W) pad init_w init_b;
        mask := built_mask (weight (Conv2d_init cin cout (H, W) pad init_w init_b))
                  H W (is_B mask_type) |}.
Proof.
  intros Hok HH. unfold MaskedConv2d_init. rewrite Hok. simpl negb. cbv iota.
  unfold assign_row_tail. cbn [kernel_size Conv2d_init fst snd].
  assert (Hlt : (H / 2 <? H) = true).
  { apply Nat.ltb_lt. apply Nat.div_lt; lia. }
  rewrite Hlt. reflexivity.
Qed.

Lemma MaskedConv2d_init_inv (cin cout : nat) (ks pad : nat * nat) (mask_type : string)
    (init_w : nat -> nat -> nat -> nat -> T) (init_b : nat -> T) (L : MaskedConv2d) :
  MaskedConv2d_init cin cout ks pad mask_type init_w init_b = Ok L ->
  L = {| conv := Conv2d_init cin cout ks pad init_w init_b;
         mask := built_mask (weight (Conv2d_init cin cout ks pad init_w init_b))
                   (fst ks) (snd ks) (is_B mask_type) |}.
Proof.
  unfold MaskedConv2d_init, assign_row_tail.
  destruct (negb (mask_type_ok mask_type)); [discriminate|].
  cbn [kernel_size Conv2d_init].
  destruct (fst ks / 2 <? fst ks); [|discriminate].
  simpl. intros E. now inversion E.
Qed.

Lemma set_rows_from_nil (a : nat) (v : T) : set_rows_from a v [] = [].
Proof. unfold set_rows_from. now rewrite firstn_nil, skipn_nil. Qed.

Lemma update_at_nil {A : Type} (k : nat) (f : A -> A) : update_at k f [] = [].
Proof. now destruct k. Qed.

Lemma get4_built_mask (w : Tensor4) (H W b o ch i j : nat) :
  get4 (built_mask w H W b) o ch i j =
  if spec_zeroed H W b i j then zero else get4 (fill_ one w) o ch i j.
Proof.
  unfold built_mask, assign_rows_from, spec_zeroed.
  rewrite get4_map_kernels by apply set_rows_from_nil.
  rewrite get2_set_rows_from.
  rewrite Nat.add_1_r.
  change (S (H / 2) <=? i) with (H / 2 <? i).
  destruct (H / 2 <? i); [reflexivity|]. simpl orb.
  match goal with
  | |- get2 (nth ch (nth o ?X []) []) i j = _ => change (get4 X o ch i j = 
      if (i =? H / 2) && (W / 2 + b <=? j) then zero else get4 (fill_ one w) o ch i j)
  end.
  rewrite get4_map_kernels by apply update_at_nil.
  rewrite get2_update_row. reflexivity.
Qed.

(** A zeroed kernel position reads zero in the mask, wherever it lies. *)
Lemma built_mask_zero (w : Tensor4) (H W b o ch i j : nat) :
  spec_zeroed H W b i j = true -> get4 (built_mask w H W b) o ch i j = zero.
Proof. intros Hz. now rewrite get4_built_mask, Hz. Qed.

(** C2. For odd kernel height H and width W the mask the constructor
    builds is 1 at kernel position (i, j), except where i > H/2, or
    i = H/2 and j >= W/2 + (0 for type 'A', 1 for type 'B'), where it is 0;
    so the centre (H/2, W/2) holds 0 for type 'A' and 1 for type 'B'. *)
Theorem mask_construction (cin cout H W : nat) (pad : nat * nat) (mask_type : string)
    (init_w : nat -> nat -> nat -> nat -> T) (init_b : nat -> T) :
  Nat.odd H = true -> Nat.odd W = true ->
  mask_type = "A"%string \/ mask_type = "B"%string ->
  exists L,
    MaskedConv2d_init cin cout (H, W) pad mask_type init_w init_b = Ok L /\
    (forall o ch i j, o < cout -> ch < cin -> i < H -> j < W ->
       get4 (mask L) o ch i j =
       if spec_zeroed H W (is_B mask_type) i j then zero else one) /\
    (forall o ch, o < cout -> ch < cin ->
       get4 (mask L) o ch (H / 2) (W / 2) =
       if String.eqb mask_type "A" then zero else one).
Proof.
  intros HH HW Hmt.
  assert (H0 : 0 < H) by (destruct H; [discriminate | lia]).
  assert (W0 : 0 < W) by (destruct W; [discriminate | lia]).
  eexists. split; [apply MaskedConv2d_init_Ok; [now apply mask_type_ok_iff | exact H0]|].
  cbn [mask].
  assert (Hall : forall o ch i j, o < cout -> ch < cin -> i < H -> j < W ->
    get4 (built_mask (weight (Conv2d_init cin cout (H, W) pad init_w init_b))
            H W (is_B mask_type)) o ch i j =
    if spec_zeroed H W (is_B mask_type) i j then zero else one).
  { intros o ch i j Ho Hch Hi Hj. rewrite get4_built_mask.
    destruct (spec_zeroed H W (is_B mask_type) i j); [reflexivity|].
    cbn [weight Conv2d_init fst snd]. now apply get4_fill_tabulate. }
  split; [exact Hall|].
  intros o ch Ho Hch.
  rewrite Hall; try assumption; try (apply Nat.div_lt; lia).
  unfold spec_zeroed. rewrite Nat.ltb_irrefl, Nat.eqb_refl. cbn [orb andb].
  destruct Hmt as [-> | ->].
  - change (is_B "A") with 0. rewrite Nat.add_0_r, Nat.leb_refl. reflexivity.
  - change (is_B "B") with 1.
    assert (E : (W / 2 + 1 <=? W / 2) = false) by (apply Nat.leb_gt; lia).
    now rewrite E.
Qed.

(** C10. A mask type other than 'A' and 'B' makes the constructor fail its
    assertion, so no layer and no mask is returned; with 'A' or 'B' the
    assertion never fails. *)
Theorem mask_type_validation (cin cout : nat) (ks pad : nat * nat) (mask_type : string)
    (init_w : nat -> nat -> nat -> nat -> T) (init_b : nat -> T) :
  (mask_type <> "A"%string -> mask_type <> "B"%string ->
     MaskedConv2d_init cin cout ks pad mask_type init_w init_b =
     AssertionError "Mask type must be 'A' or 'B'") /\
  (mask_type = "A"%string \/ mask_type = "B"%string ->
     forall msg,
       MaskedConv2d_init cin cout ks pad mask_type init_w init_b <> AssertionError msg).
Proof.
  split.
  - intros HA HB. unfold MaskedConv2d_init.
    assert (E : mask_type_ok mask_type = false).
    { destruct (mask_type_ok mask_type) eqn:E; [|reflexivity].
      apply mask_type_ok_iff in E. tauto. }
    now rewrite E.
  - intros Hmt msg. apply mask_type_ok_iff in Hmt.
    unfold MaskedConv2d_init, assign_row_tail. rewrite Hmt. simpl negb. cbv iota.
    destruct (_ <? _); simpl; discriminate.
Qed.

(** ** The top/bottom split *)

Lemma zip_with_map_same {A B C : Type} (F : B -> C -> A) (f : A -> B) (g : A -> C)
    (l : list A) :
  (forall a, F (f a) (g a) = a) -> zip_with F (map f l) (map g l) = l.
Proof. intros HF. induction l as [|a l IH]; simpl; [reflexivity|]. now rewrite HF, IH. Qed.

Lemma zip_add_zeros_r (row : Tensor1) :
  zip_with add row (map (fun _ => zero) row) = row.
Proof. induction row as [|a row IH]; simpl; [reflexivity|]. now rewrite add_zero_r, IH. Qed.

Lemma zip_add_zeros_l (row : Tensor1) :
  zip_with add (map (fun _ => zero) row) row = row.
Proof. induction row as [|a row IH]; simpl; [reflexivity|]. now rewrite add_zero_l, IH. Qed.

Lemma zip_add_zero_rows_l (g : Tensor2) :
  zip_with (zip_with add) (map (map (fun _ => zero)) g) g = g.
Proof.
  induction g as [|row g IH]; simpl; [reflexivity|]. now rewrite zip_add_zeros_l, IH.
Qed.

Lemma split_rows_add (a : nat) (g : Tensor2) :
  zip_with (zip_with add) (set_rows_from a zero g) (set_rows_upto a zero g) = g.
Proof.
  unfold set_rows_from, set_rows_upto. revert a.
  induction g as [|row g IH]; intros a.
  - now rewrite firstn_nil, skipn_nil.
  - destruct a as [|a].
    + simpl firstn. simpl skipn. cbn [map app]. apply (zip_add_zero_rows_l (row :: g)).
    + simpl. now rewrite zip_add_zeros_r, IH.
Qed.

Lemma set_rows_from_idem (a : nat) (g : Tensor2) :
  set_rows_from a zero (set_rows_from a zero g) = set_rows_from a zero g.
Proof.
  revert a.
  induction g as [|row g IH]; intros a.
  - now rewrite !set_rows_from_nil.
  - unfold set_rows_from in *. destruct a as [|a].
    + simpl firstn. simpl skipn. rewrite !app_nil_l.
      change (map (map (fun _ : T => zero)) (map (map (fun _ : T => zero)) (row :: g))
              = map (map (fun _ : T => zero)) (row :: g)).
      rewrite map_map. apply map_ext. intros r. now rewrite map_map.
    + simpl. f_equal. apply IH.
Qed.

Lemma get4_split_top (images : Tensor4) (n ch r c : nat) :
  get4 (fst (split_top_bottom images)) n ch r c =
  if 14 <=? r then zero else get4 images n ch r c.
Proof.
  unfold split_top_bottom. cbn [fst].
  rewrite get4_map_kernels by apply set_rows_from_nil.
  now rewrite get2_set_rows_from.
Qed.

Lemma get4_split_bottom (images : Tensor4) (n ch r c : nat) :
  get4 (snd (split_top_bottom images)) n ch r c =
  if r <? 14 then zero else get4 images n ch r c.
Proof.
  unfold split_top_bottom. cbn [snd].
  rewrite get4_map_kernels.
  - now rewrite get2_set_rows_upto.
  - unfold set_rows_upto. now rewrite firstn_nil, skipn_nil.
Qed.

(** C4. [split_top_bottom] returns a top that equals the input above row
    14 and is zero from row 14 down, and a bottom that is zero above row 14
    and equals the input from row 14 down; each pixel is kept by exactly
    one of the two, their elementwise sum is the input, and splitting the
    top again returns the same top. *)
Theorem split_top_bottom_partition (images : Tensor4) :
  let top := fst (split_top_bottom images) in
  let bottom := snd (split_top_bottom images) in
  (forall n ch r c,
     get4 top n ch r c = if 14 <=? r then zero else get4 images n ch r c) /\
  (forall n ch r c,
     get4 bottom n ch r c = if r <? 14 then zero else get4 images n ch r c) /\
  (forall n ch r c,
     (r < 14 /\ get4 top n ch r c = get4 images n ch r c /\ get4 bottom n ch r c = zero) \/
     (14 <= r /\ get4 top n ch r c = zero /\ get4 bottom n ch r c = get4 images n ch r c)) /\
  zip4 add top bottom = images /\
  fst (split_top_bottom top) = top.
Proof.
  cbv zeta. split; [|split; [|split; [|split]]].
  - apply get4_split_top.
  - apply get4_split_bottom.
  - intros n ch r c. rewrite get4_split_top, get4_split_bottom.
    destruct (Nat.lt_ge_cases r 14) as [Hr | Hr].
    + left. assert (E1 : (14 <=? r) = false) by (apply Nat.leb_gt; lia).
      assert (E2 : (r <? 14) = true) by (apply Nat.ltb_lt; lia).
      now rewrite E1, E2.
    + right. assert (E1 : (14 <=? r) = true) by (apply Nat.leb_le; lia).
      assert (E2 : (r <? 14) = false) by (apply Nat.ltb_ge; lia).
      now rewrite E1, E2.
  - unfold split_top_bottom, zip4. cbn [fst snd].
    apply zip_with_map_same. intros img.
    apply zip_with_map_same. intros g. apply split_rows_add.
  - unfold split_top_bottom. cbn [fst].
    rewrite map_map. apply map_ext. intros img.
    rewrite map_map. apply map_ext. intros g. apply set_rows_from_idem.
Qed.

(** ** Masking the weights twice *)

Lemma zip_with_idem {A B : Type} (f : A -> B -> A) (Q : B -> Prop) :
  (forall a b, Q b -> f (f a b) b = f a b) ->
  forall l1 l2, Forall Q l2 -> zip_with f (zip_with f l1 l2) l2 = zip_with f l1 l2.
Proof.
  intros Hf. induction l1 as [|a l1 IH]; intros l2 HQ; [reflexivity|].
  destruct l2 as [|b l2]; [reflexivity|].
  inversion HQ; subst. simpl. rewrite Hf by assumption. now rewrite IH.
Qed.

Definition binary (v : T) : Prop := v = zero \/ v = one.

Lemma mul_binary_idem (a b : T) : binary b -> mul (mul a b) b = mul a b.
Proof. intros [-> | ->]; now rewrite ?mul_zero_r, ?mul_one_r. Qed.

Lemma zip4_mul_idem (w m : Tensor4) :
  all4 binary m -> zip4 mul (zip4 mul w m) m = zip4 mul w m.
Proof.
  unfold zip4, all4. revert w m.
  apply zip_with_idem. apply zip_with_idem. apply zip_with_idem.
  apply zip_with_idem. apply mul_binary_idem.
Qed.

Lemma Forall_firstn {A : Type} (P : A -> Prop) (n : nat) (l : list A) :
  Forall P l -> Forall P (firstn n l).
Proof.
  intros Hl. revert n. induction Hl; intros [|n]; simpl; constructor; auto.
Qed.

Lemma Forall_assign_from {A : Type} (P : A -> Prop) (s : nat) (v : A) (l : list A) :
  P v -> Forall P l -> Forall P (assign_from s v l).
Proof.
  intros Hv Hl. unfold assign_from. apply Forall_app. split.
  - now apply Forall_firstn.
  - apply Forall_forall. intros x Hx. apply in_map_iff in Hx.
    destruct Hx as (y & <- & _). exact Hv.
Qed.

Lemma Forall_update_at {A : Type} (P : A -> Prop) (f : A -> A) (k : nat) (l : list A) :
  (forall a, P a -> P (f a)) -> Forall P l -> Forall P (update_at k f l).
Proof.
  intros Hf. revert k. induction l as [|a l IH]; intros k Hl; [now destruct k|].
  inversion Hl; subst. destruct k; simpl; constructor; auto.
Qed.

Lemma Forall_set_rows_from (P : T -> Prop) (a : nat) (v : T) (g : Tensor2) :
  P v -> Forall (Forall P) g -> Forall (Forall P) (set_rows_from a v g).
Proof.
  intros Hv Hg. unfold set_rows_from. apply Forall_app. split.
  - now apply Forall_firstn.
  - apply Forall_forall. intros x Hx. apply in_map_iff in Hx.
    destruct Hx as (y & <- & _).
    apply Forall_forall. intros z Hz. apply in_map_iff in Hz.
    destruct Hz as (y' & <- & _). exact Hv.
Qed.

Lemma Forall_map_all {A B : Type} (P : B -> Prop) (f : A -> B) (l : list A) :
  (forall a, P (f a)) -> Forall P (map f l).
Proof.
  intros Hf. apply Forall_forall. intros x Hx. apply in_map_iff in Hx.
  destruct Hx as (y & <- & _). apply Hf.
Qed.

Lemma Forall_map_keep {A : Type} (P : A -> Prop) (f : A -> A) (l : list A) :
  (forall a, P a -> P (f a)) -> Forall P l -> Forall P (map f l).
Proof.
  intros Hf Hl. induction Hl; simpl; constructor; auto.
Qed.

Lemma built_mask_binary (w : Tensor4) (H W b : nat) :
  all4 binary (built_mask w H W b).
Proof.
  unfold built_mask, assign_rows_from, all4.
  assert (Hz : binary zero) by now left.
  assert (Ho : binary one) by now right.
  apply Forall_map_keep with (P := Forall (Forall (Forall binary))).
  { intros a Ha. apply Forall_map_keep with (P := Forall (Forall binary)); [|exact Ha].
    intros g Hg. now apply Forall_set_rows_from. }
  apply Forall_map_keep with (P := Forall (Forall (Forall binary))).
  { intros a Ha. apply Forall_map_keep with (P := Forall (Forall binary)); [|exact Ha].
    intros g Hg. apply Forall_update_at; [|exact Hg].
    intros row Hrow. now apply Forall_assign_from. }
  unfold fill_, map4, map3.
  apply Forall_map_all. intros a. apply Forall_map_all. intros g.
  apply Forall_map_all. intros row. apply Forall_map_all. intros _. exact Ho.
Qed.

Lemma after_forwards_cons (L : MaskedConv2d) (x : Tensor4) (xs : list Tensor4) :
  after_forwards L (x :: xs) = after_forwards (fst (MaskedConv2d_forward L x)) xs.
Proof. reflexivity. Qed.

Lemma after_forwards_masked (L : MaskedConv2d) (xs : list Tensor4) :
  all4 binary (mask L) ->
  MaskedConv2d_forward (after_forwards L xs) = MaskedConv2d_forward L.
Proof.
  intros Hb. revert L Hb. induction xs as [|x xs IH]; intros L Hb; [reflexivity|].
  rewrite after_forwards_cons. rewrite IH by exact Hb.
  unfold MaskedConv2d_forward. cbn [fst conv mask weight set_weight].
  unfold set_weight. cbn [weight in_channels out_channels kernel_size padding bias].
  now rewrite zip4_mul_idem.
Qed.

(** C9. For a layer holding the mask its constructor built (whatever its
    current weights), a forward call made after any number of earlier
    forward calls, with no parameter update in between, returns what a
    first call on the same input returns, and that is the plain
    convolution with the weights multiplied by the mask. *)
Theorem forward_masking_idempotent (cin cout : nat) (ks pad : nat * nat)
    (mask_type : string) (init_w : nat -> nat -> nat -> nat -> T) (init_b : nat -> T)
    (L0 L : MaskedConv2d) (xs : list Tensor4) (x : Tensor4) :
  MaskedConv2d_init cin cout ks pad mask_type init_w init_b = Ok L0 ->
  mask L = mask L0 ->
  snd (MaskedConv2d_forward (after_forwards L xs) x) = snd (MaskedConv2d_forward L x) /\
  snd (MaskedConv2d_forward L x) =
    Conv2d_forward (set_weight (conv L) (zip4 mul (weight (conv L)) (mask L))) x.
Proof.
  intros Hinit Hmask. split; [|reflexivity].
  rewrite after_forwards_masked; [reflexivity|].
  rewrite Hmask. apply MaskedConv2d_init_inv in Hinit. subst L0. cbn [mask].
  apply built_mask_binary.
Qed.

(** ** What a convolution reads *)

Lemma get4_zip4_mul (w m : Tensor4) (o ch i j : nat) :
  get4 (zip4 mul w m) o ch i j = mul (get4 w o ch i j) (get4 m o ch i j).
Proof.
  unfold get4, get3, get2, get1, zip4.
  unfold Tensor4, Tensor3, Tensor2, Tensor1 in *.
  rewrite (nth_zip_with _ [] [] []) by (intros; apply zip_with_nil_r || reflexivity).
  rewrite (nth_zip_with _ [] [] []) by (intros; apply zip_with_nil_r || reflexivity).
  rewrite (nth_zip_with _ [] [] []) by (intros; apply zip_with_nil_r || reflexivity).
  apply nth_zip_with; [apply mul_zero_l | apply mul_zero_r].
Qed.

Lemma get3_tabulate (O H W : nat) (f : nat -> nat -> nat -> T) (o r c : nat) :
  get3 (tabulate O (fun o => tabulate H (fun r => tabulate W (fun c => f o r c)))) o r c =
  if (o <? O) && (r <? H) && (c <? W) then f o r c else zero.
Proof.
  unfold get3, get2, get1.
  destruct (Nat.ltb_spec o O) as [Ho | Ho].
  2:{ rewrite nth_tabulate_out by assumption. simpl. now destruct r, c. }
  rewrite nth_tabulate by assumption.
  destruct (Nat.ltb_spec r H) as [Hr | Hr].
  2:{ rewrite nth_tabulate_out by assumption. simpl. now destruct c. }
  rewrite nth_tabulate by assumption.
  destruct (Nat.ltb_spec c W) as [Hc | Hc].
  2:{ now rewrite nth_tabulate_out by assumption. }
  now rewrite nth_tabulate by assumption.
Qed.

Lemma get3_conv_image (c : Conv2d) (x : Tensor3) (o r col : nat) :
  get3 (Conv2d_forward_image c x) o r col =
  if (o <? out_channels c)
     && (r <? out_dim (height x) (fst (padding c)) (fst (kernel_size c)))
     && (col <? out_dim (width x) (snd (padding c)) (snd (kernel_size c)))
  then conv_pixel c x o r col else zero.
Proof. unfold Conv2d_forward_image. apply get3_tabulate. Qed.

Lemma shape3_conv_image (c : Conv2d) (x : Tensor3) :
  shape3 (Conv2d_forward_image c x) =
  tabulate (out_channels c) (fun _ =>
    tabulate (out_dim (height x) (fst (padding c)) (fst (kernel_size c))) (fun _ =>
      out_dim (width x) (snd (padding c)) (snd (kernel_size c)))).
Proof.
  unfold shape3, Conv2d_forward_image, tabulate.
  rewrite map_map. apply map_ext. intros o.
  rewrite map_map. apply map_ext. intros r.
  now rewrite length_map, length_seq.
Qed.

Lemma height_shape3 (x : Tensor3) : height x = length (hd [] (shape3 x)).
Proof. unfold height, shape3. destruct x; simpl; [reflexivity|]. now rewrite length_map. Qed.

Lemma width_shape3 (x : Tensor3) : width x = hd 0 (hd [] (shape3 x)).
Proof. unfold width, shape3. destruct x as [|g x]; simpl; [reflexivity|]. now destruct g. Qed.

Lemma shape3_map3 (f : T -> T) (x : Tensor3) : shape3 (map3 f x) = shape3 x.
Proof.
  unfold shape3, map3. rewrite map_map. apply map_ext. intros g.
  rewrite map_map. apply map_ext. intros row. apply length_map.
Qed.

Lemma get1_map (f : T -> T) (row : Tensor1) (j : nat) :
  get1 (map f row) j = if j <? length row then f (get1 row j) else zero.
Proof.
  unfold get1. destruct (Nat.ltb_spec j (length row)) as [Hj | Hj].
  - rewrite (nth_indep _ zero (f zero)) by now rewrite length_map.
    apply map_nth.
  - apply nth_overflow. now rewrite length_map.
Qed.

Lemma get3_map3 (f : T -> T) (x : Tensor3) (ch i j : nat) :
  get3 (map3 f x) ch i j =
  if j <? nth i (nth ch (shape3 x) []) 0 then f (get3 x ch i j) else zero.
Proof.
  unfold get3, get2, map3, shape3.
  rewrite (nth_map_default (map (map f)) x ch []) by reflexivity.
  rewrite (nth_map_default (map f) _ i []) by reflexivity.
  rewrite (nth_map_default (map (@length T)) x ch []) by reflexivity.
  rewrite (nth_map_default (@length T) _ i []) by reflexivity.
  apply get1_map.
Qed.

Lemma spec_zeroed_false (H W b i j : nat) :
  spec_zeroed H W b i j = false -> i < H / 2 \/ (i = H / 2 /\ j < W / 2 + b).
Proof.
  unfold spec_zeroed. intros E. apply orb_false_iff in E. destruct E as [E1 E2].
  apply Nat.ltb_ge in E1. apply andb_false_iff in E2.
  destruct E2 as [E2 | E2].
  - apply Nat.eqb_neq in E2. left. lia.
  - apply Nat.leb_gt in E2. destruct (Nat.eq_dec i (H / 2)); [right | left]; lia.
Qed.

(** The pixel a causal convolution writes at (r, col) is settled by the
    inputs before (r, col). *)
Lemma causal_conv_pixel (b : nat) (c : Conv2d) (x y : Tensor3) (o r col : nat) :
  causal b c ->
  (forall ch i j, raster_before b r col i j -> get3 x ch i j = get3 y ch i j) ->
  conv_pixel c x o r col = conv_pixel c y o r col.
Proof.
  intros (H & W & Hpad & Hzero) Hxy. unfold conv_pixel. f_equal.
  apply big_sum_ext. intros ch _.
  apply big_sum_ext. intros i Hi.
  apply big_sum_ext. intros j Hj.
  destruct (spec_zeroed H W b i j) eqn:Ez.
  - rewrite (Hzero o ch i j Hi Hj Ez). now rewrite !mul_zero_l.
  - f_equal. unfold pad_get. rewrite Hpad. cbn [fst snd].
    destruct (Nat.leb_spec (H / 2) (r + i)) as [H1 | H1]; [|reflexivity].
    destruct (Nat.leb_spec (W / 2) (col + j)) as [H2 | H2]; [|reflexivity].
    cbn [andb]. apply Hxy. unfold raster_before.
    apply spec_zeroed_false in Ez. lia.
Qed.

Lemma raster_before_trans (b r c r' c' i j : nat) :
  raster_before 1 r c r' c' -> raster_before b r' c' i j -> raster_before b r c i j.
Proof. unfold raster_before. lia. Qed.

Lemma conv_image_agree (b : nat) (c : Conv2d) (r col : nat) (x y : Tensor3) :
  causal b c ->
  agree (raster_before b r col) x y ->
  agree (raster_before 1 r col) (Conv2d_forward_image c x) (Conv2d_forward_image c y).
Proof.
  intros Hc [Hshape Hxy].
  assert (Hh : height x = height y) by now rewrite !height_shape3, Hshape.
  assert (Hw : width x = width y) by now rewrite !width_shape3, Hshape.
  split.
  - now rewrite !shape3_conv_image, Hh, Hw.
  - intros o r' c' Hle. rewrite !get3_conv_image, Hh, Hw.
    destruct (_ && _ && _); [|reflexivity].
    apply (causal_conv_pixel b); [exact Hc|].
    intros ch i j Hb. apply Hxy. exact (raster_before_trans _ _ _ _ _ _ _ Hle Hb).
Qed.

Lemma map3_agree (f : T -> T) (P : nat -> nat -> Prop) (x y : Tensor3) :
  agree P x y -> agree P (map3 f x) (map3 f y).
Proof.
  intros [Hshape Hxy]. split.
  - now rewrite !shape3_map3.
  - intros ch i j HP. rewrite !get3_map3, Hshape.
    destruct (_ <? _); [|reflexivity]. now rewrite Hxy.
Qed.

Lemma spec_zeroed_relax (H W i j : nat) :
  spec_zeroed H W 1 i j = true -> spec_zeroed H W 0 i j = true.
Proof.
  unfold spec_zeroed. rewrite !orb_true_iff, !andb_true_iff, !Nat.ltb_lt,
    !Nat.eqb_eq, !Nat.leb_le. lia.
Qed.

Lemma masked_weights_causal (b : nat) (L : MaskedConv2d) :
  mask_causal b L ->
  causal b (set_weight (conv L) (zip4 mul (weight (conv L)) (mask L))).
Proof.
  intros (H & W & Hpad & Hzero). exists H, W. split; [exact Hpad|].
  intros o ch i j _ _ Ez. cbn [weight set_weight].
  rewrite get4_zip4_mul, (Hzero o ch i j Ez). apply mul_zero_r.
Qed.

Lemma pointwise_causal (c : Conv2d) :
  kernel_size c = (1, 1) -> padding c = (0, 0) -> causal 1 c.
Proof.
  intros Hk Hp. exists 1, 1. split; [exact Hp|].
  intros o ch i j Hi Hj. rewrite Hk in Hi, Hj. cbn [fst snd] in Hi, Hj.
  assert (i = 0) by lia. assert (j = 0) by lia. subst. discriminate.
Qed.

Lemma layer_relaxed_agree (l : Layer) (r col : nat) (x y : Tensor3) :
  layer_relaxed l ->
  agree (raster_before 1 r col) x y ->
  agree (raster_before 1 r col) (Layer_image l x) (Layer_image l y).
Proof.
  destruct l as [L | | c]; simpl; intros Hl Hxy.
  - apply (conv_image_agree 1); [now apply masked_weights_causal | exact Hxy].
  - now apply map3_agree.
  - destruct Hl as [Hk Hp]. apply (conv_image_agree 1); [now apply pointwise_causal | exact Hxy].
Qed.

Lemma layer_strict_agree (l : Layer) (r col : nat) (x y : Tensor3) :
  layer_strict l ->
  agree (raster_before 0 r col) x y ->
  agree (raster_before 1 r col) (Layer_image l x) (Layer_image l y).
Proof.
  destruct l as [L | | c]; simpl; intros Hl Hxy; try contradiction.
  apply (conv_image_agree 0); [now apply masked_weights_causal | exact Hxy].
Qed.

Lemma layers_relaxed_agree (ls : list Layer) (r col : nat) (x y : Tensor3) :
  Forall layer_relaxed ls ->
  agree (raster_before 1 r col) x y ->
  agree (raster_before 1 r col) (layers_image ls x) (layers_image ls y).
Proof.
  intros Hls. revert x y. induction Hls as [|l ls Hl _ IH]; intros x y Hxy; [exact Hxy|].
  simpl. apply IH. now apply layer_relaxed_agree.
Qed.

Lemma net_ok_agree (model : PixelCNN) (r col : nat) (x y : Tensor3) :
  net_ok model ->
  agree (raster_before 0 r col) x y ->
  agree (raster_before 1 r col) (layers_image model x) (layers_image model y).
Proof.
  destruct model as [|l rest]; simpl; [contradiction|].
  intros [Hl Hrest] Hxy.
  apply layers_relaxed_agree; [exact Hrest|]. now apply layer_strict_agree.
Qed.

Lemma layers_forward_images (ls : list Layer) (x : Tensor4) :
  snd (layers_forward ls x) = map (layers_image ls) x.
Proof.
  revert x. induction ls as [|l ls IH]; intros x.
  - simpl. now rewrite map_id.
  - simpl. destruct (Layer_forward l x) as [l' y] eqn:El.
    specialize (IH y). destruct (layers_forward ls y) as [rest' z]. simpl in *.
    rewrite IH. 
    assert (Hy : y = map (Layer_image l) x).
    { destruct l as [L | | c]; simpl in El; inversion El; reflexivity. }
    rewrite Hy, map_map. reflexivity.
Qed.

Lemma PixelCNN_forward_images (model : PixelCNN) (x : Tensor4) :
  snd (PixelCNN_forward model x) = map (fun img => map3 sigmoid (layers_image model img)) x.
Proof.
  unfold PixelCNN_forward.
  pose proof (layers_forward_images model x) as E.
  destruct (layers_forward model x) as [model' y]. simpl in *.
  rewrite E. unfold map4. now rewrite map_map.
Qed.

(** ** What the notebook leaves untouched in a model *)

Lemma erase_Layer_forward (l : Layer) (x : Tensor4) :
  erase_params (fst (Layer_forward l x)) = erase_params l.
Proof. destruct l; reflexivity. Qed.

Lemma erase_layers_forward (ls : list Layer) (x : Tensor4) :
  map erase_params (fst (layers_forward ls x)) = map erase_params ls.
Proof.
  revert x. induction ls as [|l ls IH]; intros x; [reflexivity|].
  simpl. pose proof (erase_Layer_forward l x) as El.
  destruct (Layer_forward l x) as [l' y]. specialize (IH y).
  destruct (layers_forward ls y) as [rest' z]. simpl in *. now rewrite El, IH.
Qed.

Lemma erase_PixelCNN_forward (model : PixelCNN) (x : Tensor4) :
  map erase_params (fst (PixelCNN_forward model x)) = map erase_params model.
Proof.
  unfold PixelCNN_forward. pose proof (erase_layers_forward model x) as E.
  now destruct (layers_forward model x).
Qed.

Lemma erase_Layer_step (u : Update) (l : Layer) :
  erase_params (Layer_step u l) = erase_params l.
Proof. destruct l; reflexivity. Qed.

Lemma map_zip_with_seq {A B : Type} (g : A -> B) (f : nat -> A -> A) (l : list A) :
  (forall k a, g (f k a) = g a) ->
  forall s, map g (zip_with f (seq s (length l)) l) = map g l.
Proof.
  intros Hg. induction l as [|a l IH]; intros s; [reflexivity|].
  simpl. now rewrite Hg, IH.
Qed.

Lemma erase_optimizer_step (u : nat -> Update) (model : PixelCNN) :
  map erase_params (optimizer_step u model) = map erase_params model.
Proof.
  unfold optimizer_step, imap. apply map_zip_with_seq.
  intros k l. apply erase_Layer_step.
Qed.

Lemma erase_run_event (model : PixelCNN) (e : Event) :
  map erase_params (run_event model e) = map erase_params model.
Proof.
  destruct e; simpl; [apply erase_PixelCNN_forward | apply erase_optimizer_step].
Qed.

Lemma erase_run_events (model : PixelCNN) (es : list Event) :
  map erase_params (run_events model es) = map erase_params model.
Proof.
  unfold run_events. revert model.
  induction es as [|e es IH]; intros model; [reflexivity|].
  simpl. rewrite IH. apply erase_run_event.
Qed.

Lemma erase_training_loop (model : PixelCNN) (batches : list (Tensor4 * (nat -> Update))) :
  map erase_params (training_loop model batches) = map erase_params model.
Proof.
  revert model. induction batches as [|[images u] rest IH]; intros model; [reflexivity|].
  simpl. rewrite IH. unfold train_batch.
  destruct (split_top_bottom images) as [top_half bottom_half].
  pose proof (erase_PixelCNN_forward model top_half) as E.
  destruct (PixelCNN_forward model top_half) as [model' outputs]. simpl in E.
  now rewrite erase_optimizer_step.
Qed.

Lemma net_masks_erase (model : PixelCNN) :
  net_masks (map erase_params model) = net_masks model.
Proof.
  unfold net_masks. induction model as [|l ls IH]; [reflexivity|].
  simpl. rewrite IH. now destruct l.
Qed.

Lemma net_masks_of_erase (a b : PixelCNN) :
  map erase_params a = map erase_params b -> net_masks a = net_masks b.
Proof. intros E. now rewrite <- (net_masks_erase a), E, net_masks_erase. Qed.

(** C7. The mask of a constructed layer is never modified: a forward call
    rewrites the weights and keeps the mask, and every sequence of forward
    calls and optimizer steps, the training loop included, leaves each
    layer's kind, geometry and mask as they were; only weights and biases
    change. *)
Theorem mask_constancy :
  (forall (L : MaskedConv2d) (x : Tensor4),
     mask (fst (MaskedConv2d_forward L x)) = mask L) /\
  (forall (model : PixelCNN) (es : list Event),
     net_masks (run_events model es) = net_masks model /\
     map erase_params (run_events model es) = map erase_params model) /\
  (forall (model : PixelCNN) (batches : list (Tensor4 * (nat -> Update))),
     net_masks (training_loop model batches) = net_masks model /\
     map erase_params (training_loop model batches) = map erase_params model).
Proof.
  split; [reflexivity|]. split.
  - intros model es. split; [apply net_masks_of_erase|]; apply erase_run_events.
  - intros model batches. split; [apply net_masks_of_erase|]; apply erase_training_loop.
Qed.

(** ** The constructed network is causal *)

Lemma MaskedConv2d_init_causal (cin cout k : nat) (mask_type : string)
    (init_w : nat -> nat -> nat -> nat -> T) (init_b : nat -> T) (L : MaskedConv2d) :
  MaskedConv2d_init cin cout (k, k) (k / 2, k / 2) mask_type init_w init_b = Ok L ->
  mask_causal (is_B mask_type) L.
Proof.
  intros E. apply MaskedConv2d_init_inv in E. subst L.
  exists k, k. split; [reflexivity|].
  intros o ch i j Ez. cbn [mask fst snd]. now apply built_mask_zero.
Qed.

Lemma hidden_layers_relaxed (hidden_channels kernel_size n idx : nat)
    (init_w : nat -> nat -> nat -> nat -> nat -> T) (init_b : nat -> nat -> T)
    (ls : list Layer) :
  hidden_layers hidden_channels kernel_size n idx init_w init_b = Ok ls ->
  Forall layer_relaxed ls.
Proof.
  revert idx ls. induction n as [|n IH]; intros idx ls E; simpl in E.
  - inversion E. constructor.
  - destruct (MaskedConv2d_init _ _ _ _ _ _ _) as [L | |] eqn:EL; try discriminate.
    simpl in E.
    destruct (hidden_layers _ _ n _ _ _) as [rest | |] eqn:Er; try discriminate.
    simpl in E. inversion E; subst.
    constructor; [exact (MaskedConv2d_init_causal _ _ _ _ _ _ _ EL)|].
    constructor; [exact I|]. exact (IH _ _ Er).
Qed.

Lemma PixelCNN_init_net_ok (input_channels hidden_channels kernel_size num_layers : nat)
    (init_w : nat -> nat -> nat -> nat -> nat -> T) (init_b : nat -> nat -> T)
    (model : PixelCNN) :
  PixelCNN_init input_channels hidden_channels kernel_size num_layers init_w init_b
    = Ok model ->
  net_ok model.
Proof.
  unfold PixelCNN_init. intros E.
  destruct (MaskedConv2d_init _ _ _ _ _ _ _) as [L | |] eqn:EL; try discriminate.
  simpl in E.
  destruct (hidden_layers _ _ _ _ _ _) as [hidden | |] eqn:Eh; try discriminate.
  simpl in E. inversion E; subst. simpl. split.
  - exact (MaskedConv2d_init_causal _ _ _ _ _ _ _ EL).
  - constructor; [exact I|]. apply Forall_app. split.
    + exact (hidden_layers_relaxed _ _ _ _ _ _ _ Eh).
    + constructor; [|constructor]. simpl. split; reflexivity.
Qed.

Lemma layer_strict_erase (l : Layer) : layer_strict (erase_params l) <-> layer_strict l.
Proof. destruct l; simpl; reflexivity. Qed.

Lemma layer_relaxed_erase (l : Layer) : layer_relaxed (erase_params l) <-> layer_relaxed l.
Proof. destruct l; simpl; reflexivity. Qed.

Lemma net_ok_erase (model : PixelCNN) : net_ok (map erase_params model) <-> net_ok model.
Proof.
  destruct model as [|l rest]; simpl; [reflexivity|].
  rewrite layer_strict_erase, Forall_map.
  split; intros [H1 H2]; (split; [exact H1|]);
    eapply Forall_impl; try exact H2; intros a; apply layer_relaxed_erase.
Qed.

Lemma net_ok_run_events (model : PixelCNN) (es : list Event) :
  net_ok model -> net_ok (run_events model es).
Proof.
  intros Hok. apply net_ok_erase. rewrite erase_run_events. now apply net_ok_erase.
Qed.

Lemma get4_map_images (F : Tensor3 -> Tensor3) (x : Tensor4) (n o r c : nat) :
  n < length x -> get4 (map F x) n o r c = get3 (F (nth n x [])) o r c.
Proof.
  intros Hn. unfold get4.
  rewrite (nth_indep _ [] (F [])) by now rewrite length_map.
  now rewrite map_nth.
Qed.

Lemma get4_map_images_out (F : Tensor3 -> Tensor3) (x : Tensor4) (n o r c : nat) :
  length x <= n -> get4 (map F x) n o r c = zero.
Proof.
  intros Hn. unfold get4. rewrite nth_overflow by now rewrite length_map.
  apply get3_nil.
Qed.

(** The same output pixel for two batches, through any per-image function
    that carries agreement before (r, c) to agreement up to (r, c). *)
Lemma batch_pixel_agree (F : Tensor3 -> Tensor3) (b : nat) (x y : Tensor4) (n r c : nat) :
  (forall xi yi, agree (raster_before b r c) xi yi ->
                 agree (raster_before 1 r c) (F xi) (F yi)) ->
  length x = length y ->
  shape3 (nth n x []) = shape3 (nth n y []) ->
  (forall ch i j, raster_before b r c i j -> get4 x n ch i j = get4 y n ch i j) ->
  forall o, get4 (map F x) n o r c = get4 (map F y) n o r c.
Proof.
  intros HF Hlen Hshape Hxy o.
  destruct (Nat.lt_ge_cases n (length x)) as [Hn | Hn].
  - rewrite !get4_map_images by lia.
    destruct (HF (nth n x []) (nth n y [])) as [_ Hout]; [now split|].
    apply Hout. unfold raster_before. lia.
  - now rewrite !get4_map_images_out by lia.
Qed.

(** C1, as amended.  In exact arithmetic ([Exact]: a zero weight times
    any activation is zero, which floats keep only while no activation
    overflows), for a network built by [PixelCNN.__init__] and then run
    and trained in any way, two input batches of one shape that agree, in
    image n, on every position strictly before (r, c) in raster order give
    the same network output at (r, c) of image n, whatever they hold at
    (r, c) and after it. *)
Theorem pixelcnn_autoregressive
    (input_channels hidden_channels kernel_size num_layers : nat)
    (init_w : nat -> nat -> nat -> nat -> nat -> T) (init_b : nat -> nat -> T)
    (model0 : PixelCNN) (es : list Event) (x y : Tensor4) (n r c : nat) :
  PixelCNN_init input_channels hidden_channels kernel_size num_layers init_w init_b
    = Ok model0 ->
  length x = length y ->
  shape3 (nth n x []) = shape3 (nth n y []) ->
  (forall ch i j, i < r \/ (i = r /\ j < c) -> get4 x n ch i j = get4 y n ch i j) ->
  forall o,
    get4 (snd (PixelCNN_forward (run_events model0 es) x)) n o r c =
    get4 (snd (PixelCNN_forward (run_events model0 es) y)) n o r c.
Proof.
  intros Hinit Hlen Hshape Hxy o.
  rewrite !PixelCNN_forward_images.
  apply (batch_pixel_agree _ 0); try assumption.
  - intros xi yi Hagree. apply map3_agree. apply net_ok_agree; [|exact Hagree].
    apply net_ok_run_events. exact (PixelCNN_init_net_ok _ _ _ _ _ _ _ Hinit).
  - intros ch i j Hb. apply Hxy. unfold raster_before in Hb. lia.
Qed.


(** ** Reading inside the bounds *)

Lemma nth_zip_with_in {A B C : Type} (f : A -> B -> C) (d1 : A) (d2 : B) (d : C)
    (l1 : list A) (l2 : list B) (k : nat) :
  k < length l1 -> k < length l2 ->
  nth k (zip_with f l1 l2) d = f (nth k l1 d1) (nth k l2 d2).
Proof.
  revert l2 k. induction l1 as [|a l1 IH]; intros [|b l2] [|k]; simpl; intros H1 H2;
    try lia; [reflexivity|]. apply IH; lia.
Qed.

Lemma get4_zip4_in_range (f : T -> T -> T) (a b : Tensor4) (n ch i j : nat) :
  in_range4 a n ch i j -> in_range4 b n ch i j ->
  get4 (zip4 f a b) n ch i j = f (get4 a n ch i j) (get4 b n ch i j).
Proof.
  intros (Ha1 & Ha2 & Ha3 & Ha4) (Hb1 & Hb2 & Hb3 & Hb4).
  unfold get4, get3, get2, get1, zip4.
  unfold Tensor4, Tensor3, Tensor2, Tensor1 in *.
  rewrite (nth_zip_with_in _ [] [] []) by assumption.
  rewrite (nth_zip_with_in _ [] [] []) by assumption.
  rewrite (nth_zip_with_in _ [] [] []) by assumption.
  now apply nth_zip_with_in.
Qed.




End Model.

(** * The network over the real numbers *)




(** * The notebook session *)

Lemma defined_cons (x y : string) (g : Namespace) :
  defined (y :: g) x = String.eqb x y || defined g x.
Proof. reflexivity. Qed.

Lemma run_ops_keeps_unbound (x : string) (ops : list NameOp) (g : Namespace) :
  existsb (String.eqb x) (stores ops) = false ->
  defined g x = false ->
  defined (fst (run_ops ops g)) x = false.
Proof.
  revert g. induction ops as [|[y | y] ops IH]; intros g Hs Hg; simpl.
  - exact Hg.
  - destruct (defined g y); [now apply IH | exact Hg].
  - simpl in Hs. apply orb_false_iff in Hs. destruct Hs as [Hxy Hs].
    apply IH; [exact Hs|]. unfold defined in *. simpl. now rewrite Hxy, Hg.
Qed.

Lemma run_ops_keeps_bound (x : string) (ops : list NameOp) (g : Namespace) :
  defined g x = true -> defined (fst (run_ops ops g)) x = true.
Proof.
  revert g. induction ops as [|[y | y] ops IH]; intros g Hg; simpl.
  - exact Hg.
  - destruct (defined g y); [now apply IH | exact Hg].
  - apply IH. unfold defined in *. simpl. rewrite Hg. apply orb_true_r.
Qed.

Lemma only_Train_binds_model (c : Cell) :
  c <> Train -> existsb (String.eqb "model") (stores (cell_ops c)) = false.
Proof. destruct c; intros Hc; try reflexivity. now contradiction Hc. Qed.

Lemma only_Imports_binds_torch (c : Cell) :
  is_Imports c = false -> existsb (String.eqb "torch") (stores (cell_ops c)) = false.
Proof. destruct c; intros Hc; try reflexivity. discriminate. Qed.

Lemma model_unbound_without_Train (cs : list Cell) (g : Namespace) :
  ~ In Train cs -> defined g "model" = false ->
  defined (run_session cs g) "model" = false.
Proof.
  unfold run_session. revert g. induction cs as [|c cs IH]; intros g Hcs Hg; [exact Hg|].
  simpl. apply IH.
  - intros Hin. apply Hcs. now right.
  - apply run_ops_keeps_unbound; [|exact Hg].
    apply only_Train_binds_model. intros ->. apply Hcs. now left.
Qed.

Lemma run_session_keeps_bound (x : string) (cs : list Cell) (g : Namespace) :
  defined g x = true -> defined (run_session cs g) x = true.
Proof.
  unfold run_session. revert g. induction cs as [|c cs IH]; intros g Hg; [exact Hg|].
  simpl. apply IH. now apply run_ops_keeps_bound.
Qed.

Lemma torch_bound_iff_Imports (cs : list Cell) (g : Namespace) :
  defined g "torch" = false ->
  defined (run_session cs g) "torch" = existsb is_Imports cs.
Proof.
  revert g. induction cs as [|c cs IH]; intros g Hg; [exact Hg|].
  simpl existsb. destruct (is_Imports c) eqn:Ec.
  - destruct c; try discriminate. simpl.
    change (run_session (Imports :: cs) g)
      with (run_session cs (fst (run_cell g Imports))).
    apply run_session_keeps_bound. reflexivity.
  - simpl. change (run_session (c :: cs) g) with (run_session cs (fst (run_cell g c))).
    apply IH. apply run_ops_keeps_unbound; [|exact Hg].
    now apply only_Imports_binds_torch.
Qed.

(** C8, as the cells behave.  In a session of a fresh kernel in which the
    training cell has not run, the inference cell stops with a NameError on
    [model]; the save cell stops with a NameError on [model] when the
    import cell has run and with a NameError on [torch] when it has not.
    Neither produces output. *)
Theorem inference_and_save_need_training (cs : list Cell) :
  ~ In Train cs ->
  snd (run_cell (run_session cs fresh_kernel) Inference) = NameError "model" /\
  snd (run_cell (run_session cs fresh_kernel) Save) =
    if existsb is_Imports cs then NameError "model" else NameError "torch".
Proof.
  intros Hcs.
  pose proof (model_unbound_without_Train cs fresh_kernel Hcs eq_refl) as Hm.
  pose proof (torch_bound_iff_Imports cs fresh_kernel eq_refl) as Ht.
  revert Hm Ht. generalize (run_session cs fresh_kernel). intros g Hm Ht.
  unfold run_cell. split.
  - cbn [cell_ops app run_ops]. rewrite !defined_cons, Hm. reflexivity.
  - cbn [cell_ops run_ops]. rewrite Ht.
    destruct (existsb is_Imports cs); [|reflexivity]. now rewrite Hm.
Qed.

(** The session the notebook is written for: every cell run once, in
    order, where no lookup fails. *)
Example notebook_in_order_finishes :
  let g := run_session [Imports; Classes; Data; Split; Train] fresh_kernel in
  snd (run_cell g Inference) = Finished /\ snd (run_cell g Save) = Finished.
Proof. split; reflexivity. Qed.

Lemma inference_and_save_need_training_witness :
  snd (run_cell (run_session [Imports; Classes; Data; Split] fresh_kernel) Inference)
    = NameError "model" /\
  snd (run_cell (run_session [Imports; Classes; Data; Split] fresh_kernel) Save)
    = NameError "model".
Proof.
  apply (inference_and_save_need_training [Imports; Classes; Data; Split]).
  simpl. intuition discriminate.
Defined.

(** C8, as stated, fails: in a fresh kernel the save cell alone stops on
    [torch], the first name of [torch.save(model.state_dict(), ...)], not
    on [model]. *)
Lemma save_in_fresh_kernel_stops_on_torch :
  ~ In Train [] /\
  snd (run_cell (run_session [] fresh_kernel) Save) = NameError "torch" /\
  snd (run_cell (run_session [] fresh_kernel) Save) <> NameError "model".
Proof. split; [simpl; tauto|]. split; [reflexivity | discriminate]. Qed.

(** * Concrete runs *)

(** ** Masked layers over the integers *)

Definition ones_w : nat -> nat -> nat -> nat -> Z := fun _ _ _ _ => 1%Z.
Definition zero_b : nat -> Z := fun _ => 0%Z.

(** [MaskedConv2d(1, 1, 3, padding=1, mask_type='B')]. *)
Definition layer_B_3x3 : MaskedConv2d Z :=
  match MaskedConv2d_init Z 1 1 (3, 3) (1, 1) "B" ones_w zero_b with
  | Ok L => L
  | _ => {| conv := Conv2d_init Z 0 0 (0, 0) (0, 0) ones_w zero_b; mask := [] |}
  end.


Definition grid_a : Tensor4 Z := [[[[1; 2; 3]; [4; 5; 6]; [7; 8; 9]]]]%Z.
Definition grid_b : Tensor4 Z := [[[[1; 2; 0]; [0; 0; 0]; [0; 0; 0]]]]%Z.
Definition grid_zero : Tensor4 Z := [[[[0; 0; 0]; [0; 0; 0]; [0; 0; 0]]]]%Z.

Example mask_A_3x3 :
  MaskedConv2d_init Z 1 1 (3, 3) (1, 1) "A" ones_w zero_b =
  Ok {| conv := Conv2d_init Z 1 1 (3, 3) (1, 1) ones_w zero_b;
        mask := [[[[1; 1; 1]; [1; 0; 0]; [0; 0; 0]]]]%Z |}.
Proof. reflexivity. Qed.

Example mask_B_3x3 :
  mask Z layer_B_3x3 = [[[[1; 1; 1]; [1; 1; 0]; [0; 0; 0]]]]%Z.
Proof. reflexivity. Qed.

Example mask_type_C_rejected :
  MaskedConv2d_init Z 1 1 (3, 3) (1, 1) "C" ones_w zero_b =
  AssertionError "Mask type must be 'A' or 'B'".
Proof. reflexivity. Qed.

Example empty_kernel_rejected :
  MaskedConv2d_init Z 1 1 (0, 0) (0, 0) "A" ones_w zero_b = IndexError.
Proof. reflexivity. Qed.

Example forward_B_3x3 :
  snd (MaskedConv2d_forward Z layer_B_3x3 grid_a) =
  [[[[1; 3; 5]; [7; 15; 16]; [16; 30; 28]]]]%Z.
Proof. reflexivity. Qed.

(** The relaxed mask lets the output at a position read the input at that
    position: the two grids differ at (0, 0) only and so do the outputs
    there. *)
Example relaxed_layer_reads_its_own_position :
  get4 Z (snd (MaskedConv2d_forward Z layer_B_3x3 grid_zero)) 0 0 0 0 = 0%Z /\
  get4 Z (snd (MaskedConv2d_forward Z layer_B_3x3
                 [[[[1; 0; 0]; [0; 0; 0]; [0; 0; 0]]]]%Z)) 0 0 0 0 = 1%Z.
Proof. split; reflexivity. Qed.

Example split_of_a_short_image :
  split_top_bottom Z grid_a = (grid_a, grid_zero).
Proof. reflexivity. Qed.

Lemma mask_construction_witness :
  exists L,
    MaskedConv2d_init Z 1 1 (3, 3) (1, 1) "A" ones_w zero_b = Ok L /\
    (forall o ch i j, o < 1 -> ch < 1 -> i < 3 -> j < 3 ->
       get4 Z (mask Z L) o ch i j =
       if spec_zeroed 3 3 (is_B "A") i j then 0%Z else 1%Z) /\
    (forall o ch, o < 1 -> ch < 1 ->
       get4 Z (mask Z L) o ch (3 / 2) (3 / 2) =
       if String.eqb "A" "A" then 0%Z else 1%Z).
Proof.
  exact (mask_construction Z 1 1 3 3 (1, 1) "A" ones_w zero_b
           eq_refl eq_refl (or_introl eq_refl)).
Defined.

Lemma forward_masking_idempotent_witness :
  snd (MaskedConv2d_forward Z (after_forwards Z layer_B_3x3 [grid_b; grid_a]) grid_a)
    = snd (MaskedConv2d_forward Z layer_B_3x3 grid_a).
Proof.
  refine (proj1 (forward_masking_idempotent Z 1 1 (3, 3) (1, 1) "B" ones_w zero_b
                   layer_B_3x3 layer_B_3x3 [grid_b; grid_a] grid_a _ _)).
  - reflexivity.
  - reflexivity.
Defined.



(** ** The default network over the real numbers *)

(** [PixelCNN()]: one input channel, 64 hidden channels, 7x7 kernels, six
    layers; every weight starts at 1 and every bias at 0. *)
Definition default_model : PixelCNN R :=
  match PixelCNN_init R 1 64 7 6 (fun _ _ _ _ _ => 1%R) (fun _ _ => 0%R) with
  | Ok m => m
  | _ => []
  end.

(** One blank 28x28 image, and one whose rows 14..27 are white. *)
Definition blank_batch : Tensor4 R :=
  [[repeat (repeat 0%R 28) 14 ++ repeat (repeat 0%R 28) 14]].
Definition half_white_batch : Tensor4 R :=
  [[repeat (repeat 0%R 28) 14 ++ repeat (repeat 1%R 28) 14]].

Lemma pixelcnn_autoregressive_witness :
  get4 R (snd (PixelCNN_forward R
                 (run_events R default_model [EvForward R half_white_batch])
                 blank_batch)) 0 0 14 0 =
  get4 R (snd (PixelCNN_forward R
                 (run_events R default_model [EvForward R half_white_batch])
                 half_white_batch)) 0 0 14 0.
Proof.
  refine (pixelcnn_autoregressive R 1 64 7 6 (fun _ _ _ _ _ => 1%R) (fun _ _ => 0%R)
            default_model [EvForward R half_white_batch] blank_batch half_white_batch
            0 14 0 _ _ _ _ 0).
  - reflexivity.
  - reflexivity.
  - reflexivity.
  - intros ch i j [Hi | [_ Hj]]; [|lia].
    destruct ch as [|ch]; [|reflexivity].
    do 14 (destruct i as [|i]; [reflexivity|]). lia.
Defined.

(** * Further properties of the layers, the network and the session *)

Section Further.

Variable T : Type.
Context {ST : Scalar T} {EX : Exact T} {AT : Activations T}.

(** The row lengths of every channel of every image of a batch. *)
Definition shape4 (x : Tensor4 T) : list (list (list nat)) := map (shape3 T) x.

(** A layer takes part in a convolution count. *)
Definition is_conv (l : Layer T) : bool :=
  match l with
  | LMaskedConv2d _ _ => true
  | LReLU _ => false
  | LConv2d _ _ => true
  end.

(** The shape a layer gives an image of shape [s]: a convolution sets the
    channel count and moves each extent by 2p + 1 - k, a ReLU keeps [s]. *)
Definition conv_out_shape (c : Conv2d T) (s : list (list nat)) : list (list nat) :=
  repeat
    (repeat (out_dim (hd 0 (hd [] s)) (snd (padding T c)) (snd (kernel_size T c)))
            (out_dim (length (hd [] s)) (fst (padding T c)) (fst (kernel_size T c))))
    (out_channels T c).

Definition layer_out_shape (l : Layer T) (s : list (list nat)) : list (list nat) :=
  match l with
  | LMaskedConv2d _ L => conv_out_shape (conv T L) s
  | LReLU _ => s
  | LConv2d _ c => conv_out_shape c s
  end.

(** How much a masked layer of kernel size [k] and padding [k // 2] adds
    to each extent: nothing for odd [k], one for even [k]. *)
Definition growth (k : nat) : nat := if Nat.odd k then 0 else 1.

(** The library accepts an image of shape [s] at a layer, and at every
    layer of a network in turn: no convolution raises RuntimeError. *)
Definition layer_accepts (l : Layer T) (s : list (list nat)) : bool :=
  match l with
  | LMaskedConv2d _ L =>
      Conv2d_accepts T (conv T L) (length s) (length (hd [] s)) (hd 0 (hd [] s))
  | LReLU _ => true
  | LConv2d _ c =>
      Conv2d_accepts T c (length s) (length (hd [] s)) (hd 0 (hd [] s))
  end.

Fixpoint net_accepts (ls : list (Layer T)) (s : list (list nat)) : bool :=
  match ls with
  | [] => true
  | l :: rest => layer_accepts l s && net_accepts rest (layer_out_shape l s)
  end.

(** ** Single masked layers *)







(** ** The whole network *)

(** *** Calling the model again *)

Lemma Layer_forward_again (l : Layer T) (x' : Tensor4 T) :
  Forall (all4 T (binary T)) (net_masks T [l]) ->
  Layer_forward T (fst (Layer_forward T l x')) = Layer_forward T l.
Proof.
  destruct l as [L | | c]; intros Hb; try reflexivity.
  simpl in Hb. inversion Hb as [|m ms Hm _]; subst.
  unfold Layer_forward, MaskedConv2d_forward. cbn [fst conv mask weight set_weight].
  unfold set_weight. cbn [weight in_channels out_channels kernel_size padding bias].
  now rewrite (zip4_mul_idem T).
Qed.

Lemma net_masks_cons (l : Layer T) (ls : list (Layer T)) :
  net_masks T (l :: ls) = net_masks T [l] ++ net_masks T ls.
Proof. unfold net_masks. simpl. now rewrite app_nil_r. Qed.

Lemma layers_forward_again (ls : list (Layer T)) (x' x : Tensor4 T) :
  Forall (all4 T (binary T)) (net_masks T ls) ->
  layers_forward T (fst (layers_forward T ls x')) x = layers_forward T ls x.
Proof.
  revert x' x. induction ls as [|l ls IH]; intros x' x Hb; [reflexivity|].
  rewrite net_masks_cons in Hb. apply Forall_app in Hb. destruct Hb as [Hl Hls].
  simpl. pose proof (Layer_forward_again l x' Hl) as El.
  destruct (Layer_forward T l x') as [l' y'] eqn:E1. cbn [fst] in El.
  specialize (IH y'). destruct (layers_forward T ls y') as [rest' z'] eqn:E2.
  cbn [fst]. simpl. rewrite El.
  destruct (Layer_forward T l x) as [l2 y]. specialize (IH y Hls). cbn [fst] in IH.
  now rewrite IH.
Qed.

Lemma hidden_layers_binary (hidden_channels kernel_size n idx : nat)
    (init_w : nat -> nat -> nat -> nat -> nat -> T) (init_b : nat -> nat -> T)
    (ls : list (Layer T)) :
  hidden_layers T hidden_channels kernel_size n idx init_w init_b = Ok ls ->
  Forall (all4 T (binary T)) (net_masks T ls).
Proof.
  revert idx ls. induction n as [|n IH]; intros idx ls E; simpl in E.
  - inversion E. constructor.
  - destruct (MaskedConv2d_init _ _ _ _ _ _ _ _) as [L | |] eqn:EL; try discriminate.
    simpl in E.
    destruct (hidden_layers _ _ _ n _ _ _) as [rest | |] eqn:Er; try discriminate.
    simpl in E. inversion E; subst.
    apply MaskedConv2d_init_inv in EL. subst L.
    simpl. constructor; [apply built_mask_binary | exact (IH _ _ Er)].
Qed.

Lemma PixelCNN_init_binary (input_channels hidden_channels kernel_size num_layers : nat)
    (init_w : nat -> nat -> nat -> nat -> nat -> T) (init_b : nat -> nat -> T)
    (model : PixelCNN T) :
  PixelCNN_init T input_channels hidden_channels kernel_size num_layers init_w init_b
    = Ok model ->
  Forall (all4 T (binary T)) (net_masks T model).
Proof.
  unfold PixelCNN_init. intros E.
  destruct (MaskedConv2d_init _ _ _ _ _ _ _ _) as [L | |] eqn:EL; try discriminate.
  simpl in E.
  destruct (hidden_layers _ _ _ _ _ _ _) as [hidden | |] eqn:Eh; try discriminate.
  simpl in E. inversion E; subst.
  apply MaskedConv2d_init_inv in EL. subst L.
  unfold net_masks. simpl. constructor; [apply built_mask_binary|].
  rewrite flat_map_app. simpl. rewrite app_nil_r.
  exact (hidden_layers_binary _ _ _ _ _ _ _ Eh).
Qed.

(** The weight rewriting of the masked layers cannot be seen from
    outside: on a model built by [PixelCNN.__init__] and then run and
    trained in any way, a forward call made after another forward call
    returns the output, and leaves the model, that it would have without
    the earlier call. *)
Theorem network_forward_repeatable
    (input_channels hidden_channels kernel_size num_layers : nat)
    (init_w : nat -> nat -> nat -> nat -> nat -> T) (init_b : nat -> nat -> T)
    (model0 : PixelCNN T) (es : list (Event T)) (x' x : Tensor4 T) :
  PixelCNN_init T input_channels hidden_channels kernel_size num_layers init_w init_b
    = Ok model0 ->
  PixelCNN_forward T (fst (PixelCNN_forward T (run_events T model0 es) x')) x =
  PixelCNN_forward T (run_events T model0 es) x.
Proof.
  intros Hinit.
  assert (Hb : Forall (all4 T (binary T)) (net_masks T (run_events T model0 es))).
  { rewrite (net_masks_of_erase T _ model0) by apply erase_run_events.
    exact (PixelCNN_init_binary _ _ _ _ _ _ _ Hinit). }
  pose proof (layers_forward_again (run_events T model0 es) x' x Hb) as E.
  unfold PixelCNN_forward.
  destruct (layers_forward T (run_events T model0 es) x') as [m1 y1]. cbn [fst] in *.
  now rewrite E.
Qed.

(** *** What the constructor builds *)

Lemma hidden_layers_total (hidden_channels kernel_size n idx : nat)
    (init_w : nat -> nat -> nat -> nat -> nat -> T) (init_b : nat -> nat -> T) :
  0 < kernel_size ->
  exists ls,
    hidden_layers T hidden_channels kernel_size n idx init_w init_b = Ok ls /\
    length ls = 2 * n /\
    length (filter is_conv ls) = n /\
    length (net_masks T ls) = n.
Proof.
  intros Hk. revert idx. induction n as [|n IH]; intros idx.
  - exists []. repeat split; reflexivity.
  - destruct (IH (S idx)) as (rest & Er & Hlen & Hconv & Hmask).
    simpl. rewrite (MaskedConv2d_init_Ok T) by (exact Hk || reflexivity).
    simpl. rewrite Er. simpl. eexists. split; [reflexivity|].
    simpl. rewrite Hlen, Hconv. unfold net_masks in *. simpl. rewrite Hmask.
    repeat split; lia.
Qed.

(** For every kernel size of at least 1, [PixelCNN.__init__] succeeds, and
    the model it returns has 2 * (num_layers - 2) + 3 members, of which
    1 + (num_layers - 2) are masked convolutions; counting the final 1x1
    convolution, it has max(num_layers, 2) convolutions, so [num_layers]
    0, 1 and 2 all give the same two-convolution network. *)
Theorem PixelCNN_init_structure
    (input_channels hidden_channels kernel_size num_layers : nat)
    (init_w : nat -> nat -> nat -> nat -> nat -> T) (init_b : nat -> nat -> T) :
  0 < kernel_size ->
  exists model,
    PixelCNN_init T input_channels hidden_channels kernel_size num_layers init_w init_b
      = Ok model /\
    length model = 2 * (num_layers - 2) + 3 /\
    length (net_masks T model) = S (num_layers - 2) /\
    length (filter is_conv model) = Nat.max num_layers 2.
Proof.
  intros Hk. unfold PixelCNN_init.
  rewrite (MaskedConv2d_init_Ok T) by (exact Hk || reflexivity). simpl bind.
  destruct (hidden_layers_total hidden_channels kernel_size (num_layers - 2) 1
              init_w init_b Hk) as (hidden & Eh & Hlen & Hconv & Hmask).
  rewrite Eh. simpl bind. eexists. split; [reflexivity|].
  unfold net_masks in *. simpl.
  rewrite !length_app, flat_map_app, filter_app, !length_app, Hlen, Hconv, Hmask.
  simpl. repeat split; lia.
Qed.

(** ** Shapes *)

Definition rect (C H W : nat) : list (list nat) := repeat (repeat W H) C.

Definition net_out_shape (ls : list (Layer T)) (s : list (list nat)) : list (list nat) :=
  fold_left (fun s l => layer_out_shape l s) ls s.

Lemma tabulate_const {A : Type} (n : nat) (v : A) :
  tabulate n (fun _ => v) = repeat v n.
Proof.
  unfold tabulate. generalize 0. induction n as [|n IH]; intros s; simpl;
    [reflexivity | now rewrite IH].
Qed.

Lemma shape3_Layer_image (l : Layer T) (x : Tensor3 T) :
  shape3 T (Layer_image T l x) = layer_out_shape l (shape3 T x).
Proof.
  destruct l as [L | | c]; simpl.
  - rewrite shape3_conv_image, height_shape3, width_shape3.
    cbn [set_weight out_channels kernel_size padding].
    unfold conv_out_shape. now rewrite !tabulate_const.
  - apply shape3_map3.
  - rewrite shape3_conv_image, height_shape3, width_shape3.
    unfold conv_out_shape. now rewrite !tabulate_const.
Qed.

Lemma shape3_layers_image (ls : list (Layer T)) (x : Tensor3 T) :
  shape3 T (layers_image T ls x) = net_out_shape ls (shape3 T x).
Proof.
  unfold layers_image, net_out_shape. revert x.
  induction ls as [|l ls IH]; intros x; [reflexivity|].
  simpl. now rewrite IH, shape3_Layer_image.
Qed.

Lemma layer_out_shape_erase (l : Layer T) (s : list (list nat)) :
  layer_out_shape (erase_params T l) s = layer_out_shape l s.
Proof. now destruct l. Qed.

Lemma net_out_shape_erase (ls : list (Layer T)) (s : list (list nat)) :
  net_out_shape (map (erase_params T) ls) s = net_out_shape ls s.
Proof.
  unfold net_out_shape. revert s. induction ls as [|l ls IH]; intros s; [reflexivity|].
  simpl. now rewrite layer_out_shape_erase, IH.
Qed.

Lemma net_out_shape_app (l1 l2 : list (Layer T)) (s : list (list nat)) :
  net_out_shape (l1 ++ l2) s = net_out_shape l2 (net_out_shape l1 s).
Proof. unfold net_out_shape. apply fold_left_app. Qed.

Lemma out_dim_half (n k : nat) : out_dim n (k / 2) k = n + growth k.
Proof.
  unfold out_dim, growth.
  pose proof (Nat.div_mod_eq k 2) as Hk.
  pose proof (Nat.mod_upper_bound k 2) as Hm.
  rewrite <- Nat.bit0_mod in *. rewrite Nat.bit0_odd in *.
  destruct (Nat.odd k); simpl in *; lia.
Qed.

Lemma conv_out_shape_rect (c : Conv2d T) (C H W : nat) :
  0 < C -> 0 < H ->
  conv_out_shape c (rect C H W) =
  rect (out_channels T c)
       (out_dim H (fst (padding T c)) (fst (kernel_size T c)))
       (out_dim W (snd (padding T c)) (snd (kernel_size T c))).
Proof.
  intros HC HH. unfold conv_out_shape, rect.
  destruct C as [|C]; [lia|]. destruct H as [|H]; [lia|].
  simpl. now rewrite repeat_length.
Qed.

Lemma hidden_layers_shape (hidden_channels ksz n idx : nat)
    (init_w : nat -> nat -> nat -> nat -> nat -> T) (init_b : nat -> nat -> T)
    (ls : list (Layer T)) (H W : nat) :
  hidden_layers T hidden_channels ksz n idx init_w init_b = Ok ls ->
  0 < hidden_channels -> 0 < H ->
  net_out_shape ls (rect hidden_channels H W) =
  rect hidden_channels (H + n * growth ksz) (W + n * growth ksz).
Proof.
  revert idx ls H W. induction n as [|n IH]; intros idx ls H W E Hc HH; simpl in E.
  - inversion E. simpl. unfold net_out_shape. simpl. now rewrite !Nat.add_0_r.
  - destruct (MaskedConv2d_init _ _ _ _ _ _ _ _) as [L | |] eqn:EL; try discriminate.
    simpl in E.
    destruct (hidden_layers _ _ _ n _ _ _) as [rest | |] eqn:Er; try discriminate.
    simpl in E. inversion E; subst.
    apply MaskedConv2d_init_inv in EL. subst L.
    change (net_out_shape rest
              (conv_out_shape
                 (Conv2d_init T hidden_channels hidden_channels
                    (ksz, ksz) (ksz / 2, ksz / 2)
                    (init_w idx) (init_b idx))
                 (rect hidden_channels H W)) = 
            rect hidden_channels (H + S n * growth ksz)
                 (W + S n * growth ksz)).
    rewrite conv_out_shape_rect by assumption.
    cbn [out_channels padding kernel_size Conv2d_init fst snd].
    rewrite !out_dim_half.
    rewrite (IH _ _ _ _ Er) by lia.
    f_equal; lia.
Qed.

Lemma PixelCNN_init_shape
    (input_channels hidden_channels ksz num_layers : nat)
    (init_w : nat -> nat -> nat -> nat -> nat -> T) (init_b : nat -> nat -> T)
    (model : PixelCNN T) (H W : nat) :
  PixelCNN_init T input_channels hidden_channels ksz num_layers init_w init_b
    = Ok model ->
  0 < input_channels -> 0 < hidden_channels -> 0 < H ->
  net_out_shape model (rect input_channels H W) =
  rect input_channels (H + S (num_layers - 2) * growth ksz)
                      (W + S (num_layers - 2) * growth ksz).
Proof.
  unfold PixelCNN_init. intros E Hic Hhc HH.
  destruct (MaskedConv2d_init _ _ _ _ _ _ _ _) as [L | |] eqn:EL; try discriminate.
  simpl in E.
  destruct (hidden_layers _ _ _ _ _ _ _) as [hidden | |] eqn:Eh; try discriminate.
  simpl in E. inversion E; subst.
  apply MaskedConv2d_init_inv in EL. subst L.
  change (net_out_shape (hidden ++ [LConv2d T
             (Conv2d_init T hidden_channels input_channels (1, 1) (0, 0)
                (init_w (S (num_layers - 2))) (init_b (S (num_layers - 2))))])
            (conv_out_shape
               (Conv2d_init T input_channels hidden_channels
                  (ksz, ksz) (ksz / 2, ksz / 2)
                  (init_w 0) (init_b 0))
               (rect input_channels H W)) = 
          rect input_channels (H + S (num_layers - 2) * growth ksz)
                              (W + S (num_layers - 2) * growth ksz)).
  rewrite conv_out_shape_rect by assumption.
  cbn [out_channels padding kernel_size Conv2d_init fst snd].
  rewrite !out_dim_half, net_out_shape_app.
  rewrite (hidden_layers_shape _ _ _ _ _ _ _ _ _ Eh) by lia.
  unfold net_out_shape. simpl fold_left. unfold layer_out_shape.
  rewrite conv_out_shape_rect
    by (try assumption; apply Nat.add_pos_l, Nat.add_pos_l; exact HH).
  cbn [out_channels padding kernel_size Conv2d_init fst snd].
  unfold out_dim. generalize (num_layers - 2) (growth ksz). intros n g.
  f_equal; lia.
Qed.

Lemma PixelCNN_forward_shape
    (input_channels hidden_channels ksz num_layers : nat)
    (init_w : nat -> nat -> nat -> nat -> nat -> T) (init_b : nat -> nat -> T)
    (model0 : PixelCNN T) (es : list (Event T)) (x : Tensor4 T) (H W : nat) :
  PixelCNN_init T input_channels hidden_channels ksz num_layers init_w init_b
    = Ok model0 ->
  0 < input_channels -> 0 < hidden_channels -> 0 < H ->
  Forall (fun img => shape3 T img = rect input_channels H W) x ->
  shape4 (snd (PixelCNN_forward T (run_events T model0 es) x)) =
  repeat (rect input_channels
               (H + S (num_layers - 2) * growth ksz)
               (W + S (num_layers - 2) * growth ksz))
         (length x).
Proof.
  intros Hinit Hic Hhc HH Hx. unfold shape4.
  rewrite PixelCNN_forward_images, map_map.
  induction Hx as [|img x Himg _ IH]; [reflexivity|].
  simpl. rewrite IH. f_equal.
  rewrite shape3_map3, shape3_layers_image, Himg.
  rewrite <- net_out_shape_erase, erase_run_events, net_out_shape_erase.
  exact (PixelCNN_init_shape _ _ _ _ _ _ _ H W Hinit Hic Hhc HH).
Qed.

(** *** No layer rejects a well-formed batch *)

Lemma layer_accepts_erase (l : Layer T) (s : list (list nat)) :
  layer_accepts (erase_params T l) s = layer_accepts l s.
Proof. now destruct l. Qed.

Lemma net_accepts_erase (ls : list (Layer T)) (s : list (list nat)) :
  net_accepts (map (erase_params T) ls) s = net_accepts ls s.
Proof.
  revert s. induction ls as [|l ls IH]; intros s; [reflexivity|].
  cbn [map net_accepts]. now rewrite layer_accepts_erase, layer_out_shape_erase, IH.
Qed.

Lemma net_accepts_app (l1 l2 : list (Layer T)) (s : list (list nat)) :
  net_accepts (l1 ++ l2) s = net_accepts l1 s && net_accepts l2 (net_out_shape l1 s).
Proof.
  revert s. induction l1 as [|l l1 IH]; intros s; [reflexivity|].
  cbn [app net_accepts]. rewrite IH, andb_assoc. reflexivity.
Qed.

Lemma half_kernel_fits (k n : nat) : 0 < n -> (k <=? n + 2 * (k / 2)) = true.
Proof.
  intros Hn. apply Nat.leb_le.
  pose proof (Nat.div_mod_eq k 2) as Hk.
  pose proof (Nat.mod_upper_bound k 2) as Hm. lia.
Qed.

Lemma masked_layer_accepts_rect (cin cout ksz : nat) (mask_type : string)
    (init_w : nat -> nat -> nat -> nat -> T) (init_b : nat -> T)
    (L : MaskedConv2d T) (H W : nat) :
  MaskedConv2d_init T cin cout (ksz, ksz) (ksz / 2, ksz / 2) mask_type init_w init_b
    = Ok L ->
  0 < cin -> 0 < H -> 0 < W ->
  layer_accepts (LMaskedConv2d T L) (rect cin H W) = true.
Proof.
  intros EL Hc HH HW. apply MaskedConv2d_init_inv in EL. subst L.
  unfold layer_accepts, Conv2d_accepts, rect.
  cbn [conv Conv2d_init in_channels kernel_size padding fst snd].
  destruct cin as [|cin]; [lia|]. destruct H as [|H]; [lia|].
  cbn [repeat hd length]. rewrite !repeat_length, Nat.eqb_refl.
  now rewrite !half_kernel_fits by lia.
Qed.

Lemma hidden_layers_accept (hidden_channels ksz n idx : nat)
    (init_w : nat -> nat -> nat -> nat -> nat -> T) (init_b : nat -> nat -> T)
    (ls : list (Layer T)) (H W : nat) :
  hidden_layers T hidden_channels ksz n idx init_w init_b = Ok ls ->
  0 < hidden_channels -> 0 < H -> 0 < W ->
  net_accepts ls (rect hidden_channels H W) = true.
Proof.
  revert idx ls H W. induction n as [|n IH]; intros idx ls H W E Hc HH HW; simpl in E.
  - now inversion E.
  - destruct (MaskedConv2d_init _ _ _ _ _ _ _ _) as [L | |] eqn:EL; try discriminate.
    simpl in E.
    destruct (hidden_layers _ _ _ n _ _ _) as [rest | |] eqn:Er; try discriminate.
    simpl in E. inversion E; subst.
    cbn [net_accepts layer_accepts layer_out_shape].
    change (Conv2d_accepts T (conv T L) (length (rect hidden_channels H W))
              (length (hd [] (rect hidden_channels H W)))
              (hd 0 (hd [] (rect hidden_channels H W))))
      with (layer_accepts (LMaskedConv2d T L) (rect hidden_channels H W)).
    rewrite (masked_layer_accepts_rect _ _ _ _ _ _ _ H W EL) by assumption.
    apply MaskedConv2d_init_inv in EL. subst L. cbn [conv andb].
    rewrite conv_out_shape_rect by assumption.
    cbn [out_channels padding kernel_size Conv2d_init fst snd].
    change (fst (Nat.divmod ksz 1 0 1)) with (ksz / 2).
    rewrite !out_dim_half. apply (IH _ _ _ _ Er); lia.
Qed.

Lemma PixelCNN_init_accepts
    (input_channels hidden_channels ksz num_layers : nat)
    (init_w : nat -> nat -> nat -> nat -> nat -> T) (init_b : nat -> nat -> T)
    (model : PixelCNN T) (H W : nat) :
  PixelCNN_init T input_channels hidden_channels ksz num_layers init_w init_b
    = Ok model ->
  0 < input_channels -> 0 < hidden_channels -> 0 < H -> 0 < W ->
  net_accepts model (rect input_channels H W) = true.
Proof.
  unfold PixelCNN_init. intros E Hic Hhc HH HW.
  destruct (MaskedConv2d_init _ _ _ _ _ _ _ _) as [L | |] eqn:EL; try discriminate.
  simpl in E.
  destruct (hidden_layers _ _ _ _ _ _ _) as [hidden | |] eqn:Eh; try discriminate.
  simpl in E. inversion E; subst.
  cbn [app net_accepts layer_accepts layer_out_shape].
  change (Conv2d_accepts T (conv T L) (length (rect input_channels H W))
            (length (hd [] (rect input_channels H W)))
            (hd 0 (hd [] (rect input_channels H W))))
    with (layer_accepts (LMaskedConv2d T L) (rect input_channels H W)).
  rewrite (masked_layer_accepts_rect _ _ _ _ _ _ _ H W EL) by assumption.
  apply MaskedConv2d_init_inv in EL. subst L. cbn [conv andb].
  rewrite conv_out_shape_rect by assumption.
  cbn [out_channels padding kernel_size Conv2d_init fst snd].
  change (fst (Nat.divmod ksz 1 0 1)) with (ksz / 2).
  rewrite !out_dim_half, net_accepts_app.
  rewrite (hidden_layers_accept _ _ _ _ _ _ _ _ _ Eh) by lia.
  rewrite (hidden_layers_shape _ _ _ _ _ _ _ _ _ Eh) by lia.
  cbn [andb net_accepts layer_accepts]. rewrite andb_true_r.
  unfold Conv2d_accepts, rect.
  cbn [Conv2d_init in_channels kernel_size padding fst snd].
  destruct hidden_channels as [|hc]; [lia|].
  assert (HH' : 0 < H + growth ksz + (num_layers - 2) * growth ksz)
    by (apply Nat.add_pos_l, Nat.add_pos_l; exact HH).
  assert (HW' : 0 < W + growth ksz + (num_layers - 2) * growth ksz)
    by (apply Nat.add_pos_l, Nat.add_pos_l; exact HW).
  destruct (H + growth ksz + (num_layers - 2) * growth ksz) as [|H']; [lia|].
  destruct (W + growth ksz + (num_layers - 2) * growth ksz) as [|W']; [lia|].
  cbn [repeat hd length]. rewrite !repeat_length, Nat.eqb_refl.
  reflexivity.
Qed.

Lemma run_events_accepts
    (input_channels hidden_channels ksz num_layers : nat)
    (init_w : nat -> nat -> nat -> nat -> nat -> T) (init_b : nat -> nat -> T)
    (model0 : PixelCNN T) (es : list (Event T)) (H W : nat) :
  PixelCNN_init T input_channels hidden_channels ksz num_layers init_w init_b
    = Ok model0 ->
  0 < input_channels -> 0 < hidden_channels -> 0 < H -> 0 < W ->
  net_accepts (run_events T model0 es) (rect input_channels H W) = true.
Proof.
  intros Hinit Hic Hhc HH HW.
  rewrite <- net_accepts_erase, erase_run_events, net_accepts_erase.
  exact (PixelCNN_init_accepts _ _ _ _ _ _ _ H W Hinit Hic Hhc HH HW).
Qed.

Lemma Layer_accepts_shape (l : Layer T) (x : Tensor3 T) :
  Layer_accepts T l x = layer_accepts l (shape3 T x).
Proof.
  destruct l as [L | | c]; cbn [Layer_accepts layer_accepts]; [|reflexivity|];
    rewrite height_shape3, width_shape3; unfold shape3; now rewrite length_map.
Qed.

Lemma layers_accept_shape (ls : list (Layer T)) (x : Tensor3 T) :
  layers_accept T ls x = net_accepts ls (shape3 T x).
Proof.
  revert x. induction ls as [|l ls IH]; intros x; [reflexivity|].
  cbn [layers_accept net_accepts].
  now rewrite Layer_accepts_shape, IH, shape3_Layer_image.
Qed.

Lemma batch_accepted (ls : list (Layer T)) (s : list (list nat)) (x : Tensor4 T) :
  net_accepts ls s = true ->
  Forall (fun img => shape3 T img = s) x ->
  forallb (layers_accept T ls) x = true.
Proof.
  intros Hs Hx. apply forallb_forall. intros img Himg.
  rewrite Forall_forall in Hx. now rewrite layers_accept_shape, (Hx img Himg).
Qed.

(** The shape of the network's output.  On a batch of images of
    [input_channels] channels, H > 0 rows and W > 0 columns, a model built
    by [PixelCNN.__init__] (positive channel counts), however run and
    trained, rejects no image at any layer and returns one image per input
    image, each of [input_channels] channels and of H + m * g rows and
    W + m * g columns, where m is the number of masked layers and g is 0
    for an odd kernel size and 1 for an even one: odd kernels keep the
    image size, even kernels enlarge it. *)
Theorem network_output_shape
    (input_channels hidden_channels kernel_size num_layers : nat)
    (init_w : nat -> nat -> nat -> nat -> nat -> T) (init_b : nat -> nat -> T)
    (model0 : PixelCNN T) (es : list (Event T)) (x : Tensor4 T) (H W : nat) :
  PixelCNN_init T input_channels hidden_channels kernel_size num_layers init_w init_b
    = Ok model0 ->
  0 < input_channels -> 0 < hidden_channels -> 0 < H -> 0 < W ->
  Forall (fun img => shape3 T img = rect input_channels H W) x ->
  forallb (layers_accept T (run_events T model0 es)) x = true /\
  shape4 (snd (PixelCNN_forward T (run_events T model0 es) x)) =
  repeat (rect input_channels
               (H + S (num_layers - 2) * growth kernel_size)
               (W + S (num_layers - 2) * growth kernel_size))
         (length x).
Proof.
  intros Hinit Hic Hhc HH HW Hx. split.
  - apply (batch_accepted _ (rect input_channels H W)); [|exact Hx].
    exact (run_events_accepts _ _ _ _ _ _ _ es H W Hinit Hic Hhc HH HW).
  - exact (PixelCNN_forward_shape _ _ _ _ _ _ _ es x H W Hinit Hic Hhc HH Hx).
Qed.

(** ** Tensors are settled by their shape and their entries *)

Lemma tensor1_ext (u v : Tensor1 T) :
  length u = length v -> (forall j, get1 T u j = get1 T v j) -> u = v.
Proof. intros Hl Hv. apply (nth_ext u v zero zero Hl). intros j _. apply Hv. Qed.

Lemma tensor2_ext (g g' : Tensor2 T) :
  map (@length T) g = map (@length T) g' ->
  (forall i j, get2 T g i j = get2 T g' i j) -> g = g'.
Proof.
  intros Hs Hv.
  assert (Hl : length g = length g').
  { apply (f_equal (@length nat)) in Hs. now rewrite !length_map in Hs. }
  apply (nth_ext g g' [] [] Hl). intros i _. apply tensor1_ext.
  - apply (f_equal (fun l => nth i l 0)) in Hs.
    now rewrite !(nth_map_default (@length T) _ i []) in Hs by reflexivity.
  - intros j. apply Hv.
Qed.

Lemma tensor3_ext (x y : Tensor3 T) :
  shape3 T x = shape3 T y ->
  (forall ch i j, get3 T x ch i j = get3 T y ch i j) -> x = y.
Proof.
  unfold shape3. intros Hs Hv.
  assert (Hl : length x = length y).
  { apply (f_equal (@length (list nat))) in Hs. now rewrite !length_map in Hs. }
  apply (nth_ext x y [] [] Hl). intros ch _. apply tensor2_ext.
  - apply (f_equal (fun l => nth ch l [])) in Hs.
    now rewrite !(nth_map_default (map (@length T)) _ ch []) in Hs by reflexivity.
  - intros i j. apply Hv.
Qed.

Lemma tensor4_ext (x y : Tensor4 T) :
  shape4 x = shape4 y ->
  (forall n ch i j, get4 T x n ch i j = get4 T y n ch i j) -> x = y.
Proof.
  unfold shape4. intros Hs Hv.
  assert (Hl : length x = length y).
  { apply (f_equal (@length (list (list nat)))) in Hs. now rewrite !length_map in Hs. }
  apply (nth_ext x y [] [] Hl). intros n _. apply tensor3_ext.
  - apply (f_equal (fun l => nth n l [])) in Hs.
    now rewrite !(nth_map_default (shape3 T) _ n []) in Hs by reflexivity.
  - intros ch i j. apply Hv.
Qed.

(** ** More on the split *)

Lemma map_length_set_rows_from (a : nat) (v : T) (g : Tensor2 T) :
  map (@length T) (set_rows_from T a v g) = map (@length T) g.
Proof.
  unfold set_rows_from. rewrite map_app, map_map.
  rewrite (map_ext (fun r => length (map (fun _ : T => v) r)) (@length T))
    by (intros r; apply length_map).
  now rewrite <- map_app, firstn_skipn.
Qed.

Lemma map_length_set_rows_upto (a : nat) (v : T) (g : Tensor2 T) :
  map (@length T) (set_rows_upto T a v g) = map (@length T) g.
Proof.
  unfold set_rows_upto. rewrite map_app, map_map.
  rewrite (map_ext (fun r => length (map (fun _ : T => v) r)) (@length T))
    by (intros r; apply length_map).
  now rewrite <- map_app, firstn_skipn.
Qed.

Lemma shape4_map_kernels (F : Tensor2 T -> Tensor2 T) (x : Tensor4 T) :
  (forall g, map (@length T) (F g) = map (@length T) g) ->
  shape4 (map (map F) x) = shape4 x.
Proof.
  intros HF. unfold shape4, shape3. rewrite map_map. apply map_ext. intros img.
  rewrite map_map. apply map_ext. exact HF.
Qed.

Lemma shape4_split_top (images : Tensor4 T) :
  shape4 (fst (split_top_bottom T images)) = shape4 images.
Proof. apply shape4_map_kernels. intros g. apply map_length_set_rows_from. Qed.

Lemma shape4_split_bottom (images : Tensor4 T) :
  shape4 (snd (split_top_bottom T images)) = shape4 images.
Proof. apply shape4_map_kernels. intros g. apply map_length_set_rows_upto. Qed.

Lemma shape4_map4 (f : T -> T) (x : Tensor4 T) : shape4 (map4 T f x) = shape4 x.
Proof.
  unfold shape4, map4. rewrite map_map. apply map_ext. intros img. apply shape3_map3.
Qed.

Lemma get4_zeros (x : Tensor4 T) (n ch i j : nat) :
  get4 T (map4 T (fun _ => zero) x) n ch i j = zero.
Proof.
  unfold map4, map3.
  rewrite (get4_map_kernels T (map (map (fun _ : T => zero)))) by reflexivity.
  apply get2_const_zero.
Qed.

(** The two halves are complementary projections: splitting the bottom
    half again returns it as the bottom, the top of the bottom half and
    the bottom of the top half are both the all-zero batch, and both
    halves have the shape of the input. *)
Theorem split_halves_complementary (images : Tensor4 T) :
  let top := fst (split_top_bottom T images) in
  let bottom := snd (split_top_bottom T images) in
  snd (split_top_bottom T bottom) = bottom /\
  fst (split_top_bottom T bottom) = map4 T (fun _ => zero) images /\
  snd (split_top_bottom T top) = map4 T (fun _ => zero) images /\
  shape4 top = shape4 images /\
  shape4 bottom = shape4 images.
Proof.
  cbv zeta. repeat split.
  - apply tensor4_ext; [now rewrite !shape4_split_bottom|].
    intros n ch r c. rewrite !get4_split_bottom. now destruct (r <? 14).
  - apply tensor4_ext; [now rewrite shape4_split_top, shape4_split_bottom, shape4_map4|].
    intros n ch r c. rewrite get4_split_top, get4_split_bottom, get4_zeros.
    destruct (Nat.leb_spec 14 r) as [Hr | Hr]; [reflexivity|].
    assert (E : (r <? 14) = true) by (apply Nat.ltb_lt; lia). now rewrite E.
  - apply tensor4_ext; [now rewrite shape4_split_bottom, shape4_split_top, shape4_map4|].
    intros n ch r c. rewrite get4_split_bottom, get4_split_top, get4_zeros.
    destruct (Nat.ltb_spec r 14) as [Hr | Hr]; [reflexivity|].
    assert (E : (14 <=? r) = true) by (apply Nat.leb_le; lia). now rewrite E.
  - apply shape4_split_top.
  - apply shape4_split_bottom.
Qed.

(** The split row is the constant 14, not half the image height: a batch
    whose images have at most 14 rows is its own top half, and its bottom
    half is all zero. *)
Theorem split_of_short_images (images : Tensor4 T) :
  Forall (Forall (fun g : Tensor2 T => length g <= 14)) images ->
  fst (split_top_bottom T images) = images /\
  snd (split_top_bottom T images) = map4 T (fun _ => zero) images.
Proof.
  intros Hshort. unfold split_top_bottom, map4, map3. cbn [fst snd]. split.
  - rewrite <- (map_id images) at 2. apply map_ext_in. intros img Himg.
    rewrite <- (map_id img) at 2. apply map_ext_in. intros g Hg.
    assert (Hlen : length g <= 14).
    { rewrite Forall_forall in Hshort. specialize (Hshort img Himg).
      rewrite Forall_forall in Hshort. exact (Hshort g Hg). }
    unfold set_rows_from. rewrite firstn_all2, skipn_all2 by assumption.
    apply app_nil_r.
  - apply map_ext_in. intros img Himg. apply map_ext_in. intros g Hg.
    assert (Hlen : length g <= 14).
    { rewrite Forall_forall in Hshort. specialize (Hshort img Himg).
      rewrite Forall_forall in Hshort. exact (Hshort g Hg). }
    unfold set_rows_upto. rewrite firstn_all2, skipn_all2 by assumption.
    apply app_nil_r.
Qed.

(** ** More on the completion *)

Lemma zip_opt_zip_with {A X : Type} (h : A -> X) (f : A -> A -> option A)
    (g : A -> A -> A) :
  (forall a b, h a = h b -> f a b = Some (g a b)) ->
  forall l l', map h l = map h l' -> zip_opt f l l' = Some (zip_with g l l').
Proof.
  intros Hf. induction l as [|a l IH]; intros [|b l'] Hl; simpl in *;
    try discriminate; [reflexivity|].
  injection Hl as Hab Hl. now rewrite (Hf a b Hab), (IH l' Hl).
Qed.

(** On equal sizes broadcasting is the entry-by-entry combination. *)
Lemma broadcast_zip_with {A X : Type} (h : A -> X) (f : A -> A -> option A)
    (g : A -> A -> A) :
  (forall a b, h a = h b -> f a b = Some (g a b)) ->
  forall l l', map h l = map h l' -> broadcast f l l' = Some (zip_with g l l').
Proof.
  intros Hf l l' Hl. pose proof (zip_opt_zip_with h f g Hf l l' Hl) as Hz.
  destruct l as [|a [|a' l]]; destruct l' as [|b [|b' l']];
    simpl in Hl; try discriminate; try exact Hz.
Qed.

Lemma map_unit_same_length {A : Type} (u v : list A) :
  length u = length v -> map (fun _ => tt) u = map (fun _ => tt) v.
Proof.
  revert v. induction u as [|a u IH]; intros [|b v] Hl; simpl in *;
    try discriminate; [reflexivity|].
  f_equal. apply IH. lia.
Qed.

Lemma tensor_add_same_shape (a b : Tensor4 T) :
  shape4 a = shape4 b -> tensor_add T a b = Some (zip4 T add a b).
Proof.
  unfold tensor_add, zip4, shape4, shape3.
  apply (broadcast_zip_with (map (map (@length T)))). intros x y Hxy.
  apply (broadcast_zip_with (map (@length T))); [|exact Hxy]. intros g g' Hg.
  apply (broadcast_zip_with (@length T)); [|exact Hg]. intros u v Huv.
  apply (broadcast_zip_with (fun _ => tt)); [reflexivity|].
  now apply map_unit_same_length.
Qed.

Lemma complete_batch_eq (model : PixelCNN T) (images : Tensor4 T) :
  complete_batch T model images =
  if forallb (layers_accept T model) (fst (split_top_bottom T images)) then
    match tensor_add T (fst (split_top_bottom T images))
            (snd (PixelCNN_forward T model (fst (split_top_bottom T images)))) with
    | Some completed_images =>
        Some (fst (PixelCNN_forward T model (fst (split_top_bottom T images))),
              completed_images)
    | None => None
    end
  else None.
Proof.
  unfold complete_batch.
  destruct (split_top_bottom T images) as [top_half bottom_half]. cbn [fst].
  now destruct (PixelCNN_forward T model top_half).
Qed.

Lemma complete_batch_same_shape (model : PixelCNN T) (images : Tensor4 T) :
  forallb (layers_accept T model) (fst (split_top_bottom T images)) = true ->
  shape4 (fst (split_top_bottom T images)) =
  shape4 (snd (PixelCNN_forward T model (fst (split_top_bottom T images)))) ->
  complete_batch T model images =
  Some (fst (PixelCNN_forward T model (fst (split_top_bottom T images))),
        zip4 T add (fst (split_top_bottom T images))
          (snd (PixelCNN_forward T model (fst (split_top_bottom T images))))).
Proof.
  intros Ha Hs. now rewrite complete_batch_eq, Ha, (tensor_add_same_shape _ _ Hs).
Qed.

Lemma split_top_ext (a b : Tensor4 T) :
  shape4 a = shape4 b ->
  (forall n ch r c, r < 14 -> get4 T a n ch r c = get4 T b n ch r c) ->
  fst (split_top_bottom T a) = fst (split_top_bottom T b).
Proof.
  intros Hs Hv. apply tensor4_ext; [now rewrite !shape4_split_top|].
  intros n ch r c. rewrite !get4_split_top.
  destruct (Nat.leb_spec 14 r) as [Hr | Hr]; [reflexivity | now apply Hv].
Qed.

(** Completion never looks at the rows it is asked to fill in: two batches
    of one shape that agree on rows 0..13 get the same completed images,
    and leave the model in the same state, whatever they hold from row 14
    down. *)
Theorem completion_ignores_bottom_rows (model : PixelCNN T) (a b : Tensor4 T) :
  shape4 a = shape4 b ->
  (forall n ch r c, r < 14 -> get4 T a n ch r c = get4 T b n ch r c) ->
  complete_batch T model a = complete_batch T model b.
Proof.
  intros Hs Hv. rewrite !complete_batch_eq.
  now rewrite (split_top_ext a b Hs Hv).
Qed.

Lemma length_zip_with_same {A : Type} (f : A -> A -> A) (u v : list A) :
  length u = length v -> length (zip_with f u v) = length u.
Proof.
  revert v. induction u as [|a u IH]; intros [|b v] Hl; simpl in *; try lia.
  now rewrite IH by lia.
Qed.

Lemma map_zip_with_same_shape {A X : Type} (h : A -> X) (F : A -> A -> A) :
  (forall a b, h a = h b -> h (F a b) = h a) ->
  forall l l', map h l = map h l' -> map h (zip_with F l l') = map h l.
Proof.
  intros HF. induction l as [|a l IH]; intros [|b l'] Hl; simpl in *;
    try discriminate; try reflexivity.
  inversion Hl. now rewrite HF, IH.
Qed.

Lemma shape4_zip4 (f : T -> T -> T) (a b : Tensor4 T) :
  shape4 a = shape4 b -> shape4 (zip4 T f a b) = shape4 a.
Proof.
  unfold shape4, shape3, zip4.
  apply map_zip_with_same_shape. apply map_zip_with_same_shape.
  apply map_zip_with_same_shape. apply length_zip_with_same.
Qed.

Lemma shape4_uniform (s : list (list nat)) (x : Tensor4 T) :
  Forall (fun img => shape3 T img = s) x <-> shape4 x = repeat s (length x).
Proof.
  unfold shape4. induction x as [|img x IH]; simpl.
  - split; [reflexivity | constructor].
  - split.
    + intros Hx. inversion Hx; subst. f_equal. now apply IH.
    + intros Hx. injection Hx as H0 H1. constructor; [exact H0|].
      apply IH. exact H1.
Qed.

Lemma split_top_uniform (s : list (list nat)) (images : Tensor4 T) :
  Forall (fun img => shape3 T img = s) images ->
  Forall (fun img => shape3 T img = s) (fst (split_top_bottom T images)).
Proof.
  intros Himgs. apply shape4_uniform. rewrite shape4_split_top.
  replace (length (fst (split_top_bottom T images))) with (length images).
  - now apply shape4_uniform.
  - unfold split_top_bottom. cbn [fst]. now rewrite length_map.
Qed.

(** With an odd kernel size the network keeps the image size, so the
    given half and the prediction have one shape and are added entry by
    entry. *)
Lemma odd_kernel_same_shape
    (input_channels hidden_channels ksz num_layers : nat)
    (init_w : nat -> nat -> nat -> nat -> nat -> T) (init_b : nat -> nat -> T)
    (model0 : PixelCNN T) (es : list (Event T)) (images : Tensor4 T) (H W : nat) :
  PixelCNN_init T input_channels hidden_channels ksz num_layers init_w init_b
    = Ok model0 ->
  Nat.odd ksz = true ->
  0 < input_channels -> 0 < hidden_channels -> 0 < H ->
  Forall (fun img => shape3 T img = rect input_channels H W) images ->
  shape4 (fst (split_top_bottom T images)) =
  shape4 (snd (PixelCNN_forward T (run_events T model0 es)
                 (fst (split_top_bottom T images)))).
Proof.
  intros Hinit Hodd Hic Hhc HH Himgs.
  pose proof (split_top_uniform _ _ Himgs) as Htop.
  rewrite (PixelCNN_forward_shape _ _ _ _ _ _ _ es _ H W Hinit Hic Hhc HH Htop).
  unfold growth. rewrite Hodd, Nat.mul_0_r, !Nat.add_0_r.
  now apply shape4_uniform.
Qed.

(** With an odd kernel size the completion goes through and the completed
    batch has the shape of the input batch: on images of
    [input_channels] channels, H > 0 rows and W > 0 columns (positive
    channel counts), no layer rejects the given half, the network returns
    one image of the input's size per input image, and the sum with the
    given half raises nothing and is taken entry by entry. *)
Theorem completed_images_shape
    (input_channels hidden_channels ksz num_layers : nat)
    (init_w : nat -> nat -> nat -> nat -> nat -> T) (init_b : nat -> nat -> T)
    (model0 : PixelCNN T) (es : list (Event T)) (images : Tensor4 T) (H W : nat) :
  PixelCNN_init T input_channels hidden_channels ksz num_layers init_w init_b
    = Ok model0 ->
  Nat.odd ksz = true ->
  0 < input_channels -> 0 < hidden_channels -> 0 < H -> 0 < W ->
  Forall (fun img => shape3 T img = rect input_channels H W) images ->
  exists model' completed_images,
    complete_batch T (run_events T model0 es) images = Some (model', completed_images) /\
    shape4 completed_images = shape4 images.
Proof.
  intros Hinit Hodd Hic Hhc HH HW Himgs.
  pose proof (odd_kernel_same_shape _ _ _ _ _ _ _ es _ H W
                Hinit Hodd Hic Hhc HH Himgs) as Hs.
  assert (Ha : forallb (layers_accept T (run_events T model0 es))
                 (fst (split_top_bottom T images)) = true).
  { apply (batch_accepted _ (rect input_channels H W));
      [|now apply split_top_uniform].
    exact (run_events_accepts _ _ _ _ _ _ _ es H W Hinit Hic Hhc HH HW). }
  eexists. eexists. split; [exact (complete_batch_same_shape _ _ Ha Hs)|].
  rewrite shape4_zip4 by exact Hs. apply shape4_split_top.
Qed.

(** ** Blank inputs *)

(** An image that reads zero everywhere, and a layer whose bias is zero. *)
Definition blank3 (x : Tensor3 T) : Prop := forall ch i j, get3 T x ch i j = zero.

Definition zero_bias (l : Layer T) : Prop :=
  match l with
  | LMaskedConv2d _ L => forall o, get1 T (bias T (conv T L)) o = zero
  | LReLU _ => True
  | LConv2d _ c => forall o, get1 T (bias T c) o = zero
  end.

Lemma big_sum_zero (n : nat) (f : nat -> T) :
  (forall k, f k = zero) -> big_sum n f = zero.
Proof.
  intros Hf. unfold big_sum. induction (seq 0 n) as [|k l IH]; [reflexivity|].
  simpl. rewrite Hf, IH. apply add_zero_l.
Qed.

Lemma conv_pixel_blank (c : Conv2d T) (x : Tensor3 T) (o r col : nat) :
  blank3 x -> conv_pixel T c x o r col = get1 T (bias T c) o.
Proof.
  intros Hx. unfold conv_pixel. rewrite big_sum_zero; [apply add_zero_l|].
  intros ch. apply big_sum_zero. intros i. apply big_sum_zero. intros j.
  unfold pad_get. destruct (_ && _); [rewrite Hx|]; apply mul_zero_r.
Qed.

Lemma conv_image_blank (c : Conv2d T) (x : Tensor3 T) :
  blank3 x -> (forall o, get1 T (bias T c) o = zero) ->
  blank3 (Conv2d_forward_image T c x).
Proof.
  intros Hx Hb o r col. rewrite get3_conv_image.
  destruct (_ && _); [|reflexivity]. now rewrite conv_pixel_blank.
Qed.

Lemma Layer_image_blank (l : Layer T) (x : Tensor3 T) :
  relu zero = zero -> zero_bias l -> blank3 x -> blank3 (Layer_image T l x).
Proof.
  intros Hrelu Hl Hx. destruct l as [L | | c]; cbn [Layer_image zero_bias] in *.
  - apply conv_image_blank; [exact Hx | exact Hl].
  - intros ch i j. rewrite get3_map3. destruct (_ <? _); [|reflexivity].
    now rewrite Hx.
  - apply conv_image_blank; [exact Hx | exact Hl].
Qed.

Lemma layers_image_blank (ls : list (Layer T)) (x : Tensor3 T) :
  relu zero = zero -> Forall zero_bias ls -> blank3 x ->
  blank3 (layers_image T ls x).
Proof.
  intros Hrelu Hls. revert x. unfold layers_image.
  induction Hls as [|l ls Hl _ IH]; intros x Hx; [exact Hx|].
  cbn [fold_left]. apply IH. now apply Layer_image_blank.
Qed.

Lemma get1_tabulate_zero (n : nat) (f : nat -> T) (o : nat) :
  (forall k, f k = zero) -> get1 T (tabulate n f) o = zero.
Proof.
  intros Hf. unfold get1. destruct (Nat.lt_ge_cases o n) as [Ho | Ho].
  - rewrite nth_tabulate by exact Ho. apply Hf.
  - now rewrite nth_tabulate_out.
Qed.

Lemma hidden_layers_zero_bias (hidden_channels ksz n idx : nat)
    (init_w : nat -> nat -> nat -> nat -> nat -> T) (init_b : nat -> nat -> T)
    (ls : list (Layer T)) :
  hidden_layers T hidden_channels ksz n idx init_w init_b = Ok ls ->
  (forall k o, init_b k o = zero) ->
  Forall zero_bias ls.
Proof.
  intros E Hb. revert idx ls E. induction n as [|n IH]; intros idx ls E; simpl in E.
  - inversion E. constructor.
  - destruct (MaskedConv2d_init _ _ _ _ _ _ _ _) as [L | |] eqn:EL; try discriminate.
    simpl in E.
    destruct (hidden_layers _ _ _ n _ _ _) as [rest | |] eqn:Er; try discriminate.
    simpl in E. inversion E; subst.
    apply MaskedConv2d_init_inv in EL. subst L.
    constructor; [|constructor; [exact I | exact (IH _ _ Er)]].
    intros o. cbn [zero_bias conv bias Conv2d_init]. apply get1_tabulate_zero, Hb.
Qed.

Lemma PixelCNN_init_zero_bias
    (input_channels hidden_channels ksz num_layers : nat)
    (init_w : nat -> nat -> nat -> nat -> nat -> T) (init_b : nat -> nat -> T)
    (model : PixelCNN T) :
  PixelCNN_init T input_channels hidden_channels ksz num_layers init_w init_b
    = Ok model ->
  (forall k o, init_b k o = zero) ->
  Forall zero_bias model.
Proof.
  unfold PixelCNN_init. intros E Hb.
  destruct (MaskedConv2d_init _ _ _ _ _ _ _ _) as [L | |] eqn:EL; try discriminate.
  simpl in E.
  destruct (hidden_layers _ _ _ _ _ _ _) as [hidden | |] eqn:Eh; try discriminate.
  simpl in E. inversion E; subst.
  apply MaskedConv2d_init_inv in EL. subst L.
  constructor; [|constructor; [exact I|]].
  - intros o. cbn [zero_bias conv bias Conv2d_init]. apply get1_tabulate_zero, Hb.
  - apply Forall_app. split; [exact (hidden_layers_zero_bias _ _ _ _ _ _ _ Eh Hb)|].
    constructor; [|constructor].
    intros o. cbn [zero_bias bias Conv2d_init]. apply get1_tabulate_zero, Hb.
Qed.

(** ** Entries that a shape puts in range *)

Lemma nth_repeat_in {A : Type} (a d : A) (m n : nat) :
  n < m -> nth n (repeat a m) d = a.
Proof.
  intros Hn. rewrite (nth_indep _ d a) by now rewrite repeat_length.
  apply nth_repeat.
Qed.

Lemma in_range4_of_shape (x : Tensor4 T) (C H W n ch i j : nat) :
  Forall (fun img => shape3 T img = rect C H W) x ->
  n < length x -> ch < C -> i < H -> j < W ->
  in_range4 T x n ch i j.
Proof.
  intros Hx Hn Hch Hi Hj.
  assert (Himg : shape3 T (nth n x []) = rect C H W).
  { rewrite Forall_forall in Hx. apply Hx. now apply nth_In. }
  unfold in_range4, in_range3, in_range2. unfold shape3, rect in Himg.
  assert (Hc : length (nth n x []) = C).
  { apply (f_equal (@length _)) in Himg.
    now rewrite length_map, repeat_length in Himg. }
  assert (Hrow : map (@length T) (nth ch (nth n x []) []) = repeat W H).
  { apply (f_equal (fun s => nth ch s [])) in Himg.
    rewrite (nth_map_default (map (@length T)) _ ch [] []) in Himg by reflexivity.
    now rewrite nth_repeat_in in Himg by exact Hch. }
  assert (Hh : length (nth ch (nth n x []) []) = H).
  { apply (f_equal (@length _)) in Hrow.
    now rewrite length_map, repeat_length in Hrow. }
  assert (Hw : length (nth i (nth ch (nth n x []) []) []) = W).
  { apply (f_equal (fun s => nth i s 0)) in Hrow.
    rewrite (nth_map_default (@length T) _ i [] 0) in Hrow by reflexivity.
    now rewrite nth_repeat_in in Hrow by exact Hi. }
  repeat split; lia.
Qed.

(** ** The display loop *)

Lemma imshow_accepts_one_channel (img : Tensor3 T) (H W : nat) :
  shape3 T img = rect 1 H W -> 1 < H -> 1 < W -> imshow_accepts T img = true.
Proof.
  intros Hs HH HW. unfold imshow_accepts.
  rewrite height_shape3, width_shape3.
  replace (length img) with (length (shape3 T img))
    by (unfold shape3; apply length_map).
  rewrite Hs. unfold rect. cbn [repeat hd length filter Nat.eqb negb].
  rewrite repeat_length.
  destruct H as [|[|H]]; [lia | lia |]. destruct W as [|[|W]]; [lia | lia |].
  reflexivity.
Qed.

Lemma show_in_range (x : Tensor4 T) (i : nat) :
  i < length x -> imshow_accepts T (nth i x []) = true ->
  show T x i = inl (nth i x []).
Proof.
  intros Hi Ha. unfold show. rewrite (nth_error_nth' x []) by exact Hi.
  now rewrite Ha.
Qed.

Lemma display_columns_Shown (model' : PixelCNN T) (images top_half completed : Tensor4 T)
    (columns : list nat) :
  Forall (fun i => show T images i = inl (nth i images []) /\
                   show T top_half i = inl (nth i top_half []) /\
                   show T completed i = inl (nth i completed [])) columns ->
  display_columns T model' images top_half completed columns =
  Shown T model'
    (map (fun i => (nth i images [], nth i top_half [], nth i completed [])) columns).
Proof.
  induction 1 as [|i columns (H1 & H2 & H3) _ IH]; [reflexivity|].
  cbn [display_columns map]. now rewrite H1, H2, H3, IH.
Qed.

Lemma show_uniform (x : Tensor4 T) (H W i : nat) :
  Forall (fun img => shape3 T img = rect 1 H W) x -> 1 < H -> 1 < W ->
  i < length x -> show T x i = inl (nth i x []).
Proof.
  intros Hx HH HW Hi. apply show_in_range; [exact Hi|].
  apply (imshow_accepts_one_channel _ H W); try assumption.
  rewrite Forall_forall in Hx. apply Hx. now apply nth_In.
Qed.

(** ** Batches and constructor outcomes *)

Lemma Layer_forward_state (l : Layer T) (x y : Tensor4 T) :
  fst (Layer_forward T l x) = fst (Layer_forward T l y).
Proof. now destruct l. Qed.

Lemma layers_forward_state (ls : list (Layer T)) (x y : Tensor4 T) :
  fst (layers_forward T ls x) = fst (layers_forward T ls y).
Proof.
  revert x y. induction ls as [|l ls IH]; intros x y; [reflexivity|].
  simpl. pose proof (Layer_forward_state l x y) as El.
  destruct (Layer_forward T l x) as [l1 x1]. destruct (Layer_forward T l y) as [l2 y1].
  cbn [fst] in El. subst l2. specialize (IH x1 y1).
  destruct (layers_forward T ls x1) as [r1 z1].
  destruct (layers_forward T ls y1) as [r2 z2].
  cbn [fst] in *. now subst r2.
Qed.

(** The images of a batch are processed independently: the output for a
    concatenated batch is the concatenation of the outputs, and the state
    a forward call leaves in the model does not depend on the input. *)
Theorem forward_batches_independently (model : PixelCNN T) (x1 x2 : Tensor4 T) :
  snd (PixelCNN_forward T model (x1 ++ x2)) =
    snd (PixelCNN_forward T model x1) ++ snd (PixelCNN_forward T model x2) /\
  fst (PixelCNN_forward T model (x1 ++ x2)) = fst (PixelCNN_forward T model x1).
Proof.
  split.
  - rewrite !PixelCNN_forward_images. apply map_app.
  - unfold PixelCNN_forward.
    pose proof (layers_forward_state model (x1 ++ x2) x1) as E.
    destruct (layers_forward T model (x1 ++ x2)) as [m1 y1].
    destruct (layers_forward T model x1) as [m2 y2]. exact E.
Qed.

(** The three outcomes of [MaskedConv2d.__init__], for every argument:
    it returns a layer exactly when the mask type is 'A' or 'B' and the
    kernel has at least one row, and then the mask follows the rule of the
    odd case for even kernels too; it fails the assertion exactly when
    the type is neither; and with a valid type and a kernel of no rows the
    centre-row assignment raises IndexError. *)
Theorem MaskedConv2d_init_outcome (cin cout H W : nat) (pad : nat * nat)
    (mask_type : string)
    (init_w : nat -> nat -> nat -> nat -> T) (init_b : nat -> T) :
  match MaskedConv2d_init T cin cout (H, W) pad mask_type init_w init_b with
  | Ok L =>
      mask_type_ok mask_type = true /\ 0 < H /\
      conv T L = Conv2d_init T cin cout (H, W) pad init_w init_b /\
      forall o ch i j, o < cout -> ch < cin -> i < H -> j < W ->
        get4 T (mask T L) o ch i j =
        if spec_zeroed H W (is_B mask_type) i j then zero else one
  | AssertionError _ => mask_type_ok mask_type = false
  | IndexError => mask_type_ok mask_type = true /\ H = 0
  end.
Proof.
  destruct (mask_type_ok mask_type) eqn:Eok.
  - destruct H as [|H'].
    + unfold MaskedConv2d_init. rewrite Eok. simpl. now split.
    + rewrite (MaskedConv2d_init_Ok T) by (assumption || lia).
      split; [reflexivity|]. split; [lia|]. split; [reflexivity|].
      intros o ch i j Ho Hch Hi Hj. cbn [mask]. rewrite get4_built_mask.
      destruct (spec_zeroed (S H') W (is_B mask_type) i j); [reflexivity|].
      cbn [weight Conv2d_init fst snd]. now apply get4_fill_tabulate.
  - unfold MaskedConv2d_init. rewrite Eok. reflexivity.
Qed.

End Further.

(** * The completion of a blank batch by the default network *)

(** A first test batch of five blank 28x28 images of one channel. *)
Definition five_blank_images : Tensor4 R :=
  tabulate 5 (fun _ => tabulate 1 (fun _ =>
    tabulate 28 (fun _ => tabulate 28 (fun _ => 0%R)))).

Lemma Rsigmoid_0 : Rsigmoid 0 = (1 / 2)%R.
Proof. unfold Rsigmoid. rewrite Ropp_0, exp_0. lra. Qed.

Lemma Rrelu_0 : Rrelu 0 = 0%R.
Proof. unfold Rrelu. apply Rmax_left. lra. Qed.

Lemma default_model_init :
  PixelCNN_init R 1 64 7 6 (fun _ _ _ _ _ => 1%R) (fun _ _ => 0%R) = Ok default_model.
Proof. reflexivity. Qed.

Lemma five_blank_images_zero (n ch i j : nat) :
  get4 R five_blank_images n ch i j = 0%R.
Proof.
  unfold five_blank_images, get4.
  destruct (Nat.lt_ge_cases n 5) as [Hn | Hn];
    [rewrite nth_tabulate by exact Hn
    | rewrite nth_tabulate_out by exact Hn; exact (get3_nil R ch i j)].
  unfold get3.
  destruct (Nat.lt_ge_cases ch 1) as [Hch | Hch];
    [rewrite nth_tabulate by exact Hch
    | rewrite nth_tabulate_out by exact Hch; exact (get2_nil R i j)].
  unfold get2.
  destruct (Nat.lt_ge_cases i 28) as [Hi | Hi];
    [rewrite nth_tabulate by exact Hi
    | rewrite nth_tabulate_out by exact Hi; exact (get1_nil R j)].
  exact (get1_tabulate_zero R 28 (fun _ => 0%R) j (fun _ => eq_refl)).
Qed.

Lemma five_blank_top_blank (n : nat) :
  blank3 R (nth n (fst (split_top_bottom R five_blank_images)) []).
Proof.
  intros ch i j.
  change (get4 R (fst (split_top_bottom R five_blank_images)) n ch i j = 0%R).
  rewrite get4_split_top, five_blank_images_zero. now destruct (14 <=? i).
Qed.

(** The default network turns a blank image into blank logits. *)
Lemma default_model_blank (x : Tensor3 R) :
  blank3 R x -> blank3 R (layers_image R default_model x).
Proof.
  apply (layers_image_blank R).
  - exact Rrelu_0.
  - apply (PixelCNN_init_zero_bias R 1 64 7 6 _ _ default_model default_model_init).
    reflexivity.
Qed.

(** C3, what the code does.  On a first test batch of five blank 28x28
    images, [complete_images] with the default network (weights 1, biases
    0) and the default [num_samples = 5] shows five columns, and the
    completed image of each column holds 1/2 at every pixel, in the given
    rows 0..13 as well, where the original image and the given half hold
    0: the whole prediction is added to the given half, so the given rows
    are not preserved. *)
Theorem completion_shifts_given_rows :
  let images := five_blank_images in
  let top_half := fst (split_top_bottom R images) in
  let predicted := snd (PixelCNN_forward R default_model top_half) in
  let completed := zip4 R Rplus top_half predicted in
  complete_images R default_model [images] 5 =
    Shown R (fst (PixelCNN_forward R default_model top_half))
      (map (fun i => (nth i images [], nth i top_half [], nth i completed []))
           (seq 0 5)) /\
  forall n r c, n < 5 -> r < 28 -> c < 28 ->
    get4 R images n 0 r c = 0%R /\
    get4 R top_half n 0 r c = 0%R /\
    get4 R completed n 0 r c = (1 / 2)%R.
Proof.
  cbv zeta.
  assert (Himgs : Forall (fun img => shape3 R img = rect 1 28 28) five_blank_images)
    by (repeat constructor).
  pose proof (split_top_uniform R _ _ Himgs) as Htop.
  assert (Hlen_top : length (fst (split_top_bottom R five_blank_images)) = 5).
  { unfold split_top_bottom. cbn [fst]. now rewrite length_map. }
  pose proof (PixelCNN_forward_shape R 1 64 7 6 _ _ default_model []
                (fst (split_top_bottom R five_blank_images)) 28 28
                default_model_init ltac:(lia) ltac:(lia) ltac:(lia) Htop) as Hshape.
  rewrite Hlen_top in Hshape.
  change (run_events R default_model []) with default_model in Hshape.
  change (28 + S (6 - 2) * growth 7) with 28 in Hshape.
  assert (Hlen_pred : length (snd (PixelCNN_forward R default_model
                                     (fst (split_top_bottom R five_blank_images)))) = 5).
  { apply (f_equal (@length _)) in Hshape. unfold shape4 in Hshape.
    now rewrite length_map, repeat_length in Hshape. }
  assert (Hpred : Forall (fun img => shape3 R img = rect 1 28 28)
                    (snd (PixelCNN_forward R default_model
                            (fst (split_top_bottom R five_blank_images))))).
  { apply shape4_uniform. now rewrite Hlen_pred. }
  assert (Hsame : shape4 R (fst (split_top_bottom R five_blank_images)) =
                  shape4 R (snd (PixelCNN_forward R default_model
                                   (fst (split_top_bottom R five_blank_images))))).
  { rewrite Hshape. apply shape4_uniform in Htop. now rewrite Hlen_top in Htop. }
  assert (Hlen_c : length (zip4 R Rplus (fst (split_top_bottom R five_blank_images))
                             (snd (PixelCNN_forward R default_model
                                     (fst (split_top_bottom R five_blank_images))))) = 5).
  { pose proof (shape4_zip4 R Rplus _ _ Hsame) as E.
    apply (f_equal (@length _)) in E. unfold shape4 in E.
    rewrite !length_map in E. now rewrite E. }
  assert (Hacc : forallb (layers_accept R default_model)
                   (fst (split_top_bottom R five_blank_images)) = true).
  { apply (batch_accepted R _ (rect 1 28 28)); [|exact Htop].
    apply (PixelCNN_init_accepts R 1 64 7 6 _ _ default_model 28 28
             default_model_init); lia. }
  assert (Hcomp : Forall (fun img => shape3 R img = rect 1 28 28)
                    (zip4 R Rplus (fst (split_top_bottom R five_blank_images))
                       (snd (PixelCNN_forward R default_model
                               (fst (split_top_bottom R five_blank_images)))))).
  { apply shape4_uniform. rewrite Hlen_c, (shape4_zip4 R Rplus _ _ Hsame).
    apply shape4_uniform in Htop. now rewrite Hlen_top in Htop. }
  split.
  - unfold complete_images.
    rewrite (complete_batch_same_shape R default_model five_blank_images Hacc Hsame).
    cbv beta iota. change (@add R R_Scalar) with Rplus.
    apply display_columns_Shown.
    apply Forall_forall. intros i Hi. apply in_seq in Hi.
    repeat split; apply (show_uniform R _ 28 28); try assumption; try lia.
    unfold five_blank_images. rewrite length_tabulate. lia.
  - intros n r c Hn Hr Hc.
    assert (Htop0 : get4 R (fst (split_top_bottom R five_blank_images)) n 0 r c = 0%R)
      by apply (five_blank_top_blank n 0 r c).
    split; [apply five_blank_images_zero|]. split; [exact Htop0|].
    rewrite (get4_zip4_in_range R Rplus).
    + rewrite Htop0. rewrite PixelCNN_forward_images.
      rewrite (get4_map_images R) by now rewrite Hlen_top.
      rewrite get3_map3, shape3_layers_image.
      assert (Himg : shape3 R (nth n (fst (split_top_bottom R five_blank_images)) [])
                     = rect 1 28 28).
      { rewrite Forall_forall in Htop. apply Htop. apply nth_In. now rewrite Hlen_top. }
      rewrite Himg.
      rewrite (PixelCNN_init_shape R 1 64 7 6 _ _ default_model 28 28
                 default_model_init) by lia.
      change (28 + S (6 - 2) * growth 7) with 28.
      unfold rect. rewrite (nth_repeat_in (repeat 28 28) [] 1 0) by lia.
      rewrite nth_repeat_in by exact Hr.
      assert (E : (c <? 28) = true) by now apply Nat.ltb_lt.
      rewrite E.
      rewrite (default_model_blank _ (five_blank_top_blank n) 0 r c).
      change (@sigmoid R R_Activations (@zero R R_Scalar)) with (Rsigmoid 0).
      rewrite Rsigmoid_0. lra.
    + apply (in_range4_of_shape R _ 1 28 28); try assumption; lia.
    + apply (in_range4_of_shape R _ 1 28 28); try assumption; lia.
Qed.


(** ** How many kernel positions a mask keeps *)

Lemma big_sum_Z_S (n : nat) (f : nat -> Z) :
  @big_sum Z Z_Scalar (S n) f = (@big_sum Z Z_Scalar n f + f n)%Z.
Proof.
  unfold big_sum. rewrite seq_S, fold_right_app. simpl.
  generalize (seq 0 n). intros l. induction l as [|a l IH]; simpl; [lia|].
  rewrite IH. lia.
Qed.

Lemma big_sum_Z_0 (f : nat -> Z) : @big_sum Z Z_Scalar 0 f = 0%Z.
Proof. reflexivity. Qed.

Lemma big_sum_Z_const (n : nat) (v : Z) :
  @big_sum Z Z_Scalar n (fun _ => v) = (Z.of_nat n * v)%Z.
Proof.
  induction n as [|n IH]; [reflexivity|]. rewrite big_sum_Z_S, IH. lia.
Qed.

Lemma big_sum_Z_below (n s : nat) :
  @big_sum Z Z_Scalar n (fun j => if s <=? j then 0%Z else 1%Z) = Z.of_nat (Nat.min n s).
Proof.
  induction n as [|n IH]; [reflexivity|]. rewrite big_sum_Z_S, IH.
  destruct (Nat.leb_spec s n); lia.
Qed.

Lemma kept_in_row (H W b i : nat) :
  @big_sum Z Z_Scalar W (fun j => if spec_zeroed H W b i j then 0%Z else 1%Z) =
  if i <? H / 2 then Z.of_nat W
  else if i =? H / 2 then Z.of_nat (Nat.min W (W / 2 + b))
  else 0%Z.
Proof.
  unfold spec_zeroed.
  destruct (Nat.ltb_spec i (H / 2)) as [Hlt | Hge].
  - rewrite (big_sum_ext Z W _ (fun _ => 1%Z)); [rewrite big_sum_Z_const; lia|].
    intros j _.
    assert (E1 : (H / 2 <? i) = false) by (apply Nat.ltb_ge; lia).
    assert (E2 : (i =? H / 2) = false) by (apply Nat.eqb_neq; lia).
    now rewrite E1, E2.
  - destruct (Nat.eqb_spec i (H / 2)) as [Heq | Hne].
    + subst i. rewrite Nat.ltb_irrefl. simpl. apply big_sum_Z_below.
    + rewrite (big_sum_ext Z W _ (fun _ => 0%Z)); [rewrite big_sum_Z_const; lia|].
      intros j _.
      assert (E1 : (H / 2 <? i) = true) by (apply Nat.ltb_lt; lia).
      now rewrite E1.
Qed.

Lemma kept_rows (n h : nat) (full mid : Z) :
  @big_sum Z Z_Scalar n
    (fun i => if i <? h then full else if i =? h then mid else 0%Z) =
  (Z.of_nat (Nat.min n h) * full + (if (h <? n)%nat then mid else 0))%Z.
Proof.
  induction n as [|n IH]; [reflexivity|]. rewrite big_sum_Z_S, IH.
  destruct (Nat.ltb_spec n h) as [H1 | H1].
  - replace (Nat.min (S n) h) with (S (Nat.min n h)) by lia.
    assert (E1 : (h <? n) = false) by (apply Nat.ltb_ge; lia).
    assert (E2 : (h <? S n) = false) by (apply Nat.ltb_ge; lia).
    rewrite E1, E2. lia.
  - replace (Nat.min (S n) h) with (Nat.min n h) by lia.
    assert (E2 : (h <? S n) = true) by (apply Nat.ltb_lt; lia).
    rewrite E2.
    destruct (Nat.eqb_spec n h) as [H2 | H2].
    + assert (E1 : (h <? n) = false) by (apply Nat.ltb_ge; lia).
      rewrite E1. lia.
    + assert (E1 : (h <? n) = true) by (apply Nat.ltb_lt; lia).
      rewrite E1. lia.
Qed.

(** The entries of a constructed mask add up, over each kernel, to
    (H/2) * W + min(W, W/2 + [type is 'B']): the number of ones.  A 3x3
    kernel keeps 4 positions under type 'A' and 5 under type 'B'; a 7x7
    kernel keeps 24 and 25. *)
Theorem mask_keeps_count (cin cout H W : nat) (pad : nat * nat) (mask_type : string)
    (init_w : nat -> nat -> nat -> nat -> Z) (init_b : nat -> Z)
    (L : MaskedConv2d Z) (o ch : nat) :
  MaskedConv2d_init Z cin cout (H, W) pad mask_type init_w init_b = Ok L ->
  o < cout -> ch < cin ->
  @big_sum Z Z_Scalar H (fun i =>
    @big_sum Z Z_Scalar W (fun j => get4 Z (mask Z L) o ch i j)) =
  Z.of_nat (H / 2 * W + Nat.min W (W / 2 + is_B mask_type)).
Proof.
  intros Hinit Ho Hch.
  assert (HH : H / 2 < H).
  { unfold MaskedConv2d_init, assign_row_tail in Hinit.
    destruct (negb (mask_type_ok mask_type)); [discriminate|].
    cbn [kernel_size Conv2d_init fst] in Hinit.
    destruct (Nat.ltb_spec (H / 2) H); [assumption | discriminate]. }
  apply MaskedConv2d_init_inv in Hinit. subst L. cbn [mask fst snd].
  rewrite (big_sum_ext Z H _ (fun i =>
    if i <? H / 2 then Z.of_nat W
    else if i =? H / 2 then Z.of_nat (Nat.min W (W / 2 + is_B mask_type))
    else 0%Z)).
  - rewrite kept_rows.
    assert (E : (H / 2 <? H) = true) by now apply Nat.ltb_lt.
    rewrite E. replace (Nat.min H (H / 2)) with (H / 2) by lia. lia.
  - intros i Hi. rewrite <- kept_in_row. apply big_sum_ext. intros j Hj.
    rewrite get4_built_mask.
    destruct (spec_zeroed H W (is_B mask_type) i j); [reflexivity|].
    cbn [weight Conv2d_init fst snd]. now apply get4_fill_tabulate.
Qed.

(** ** More on the notebook session *)

Lemma run_ops_finishes_mono (ops : list NameOp) (g g' : Namespace) :
  (forall x, defined g x = true -> defined g' x = true) ->
  snd (run_ops ops g) = Finished -> snd (run_ops ops g') = Finished.
Proof.
  revert g g'. induction ops as [|[x | x] ops IH]; intros g g' Hsub Hfin; simpl in *.
  - reflexivity.
  - destruct (defined g x) eqn:Ex; [|discriminate].
    rewrite (Hsub x Ex). exact (IH g g' Hsub Hfin).
  - apply (IH (x :: g) (x :: g')); [|exact Hfin].
    intros y. rewrite !defined_cons. intros Hy.
    apply orb_true_iff in Hy. apply orb_true_iff.
    destruct Hy as [Hy | Hy]; [now left | right; now apply Hsub].
Qed.

Lemma run_session_app (cs1 cs2 : list Cell) (g : Namespace) :
  run_session (cs1 ++ cs2) g = run_session cs2 (run_session cs1 g).
Proof. unfold run_session. apply fold_left_app. Qed.

(** Nothing in the notebook unbinds a name, so success is stable: a cell
    that runs to its end at some point of a session runs to its end again
    whenever it is re-run later in that session, whatever cells ran in
    between and whether they failed. *)
Theorem cell_success_is_stable (cs1 cs2 : list Cell) (c : Cell) :
  snd (run_cell (run_session cs1 fresh_kernel) c) = Finished ->
  snd (run_cell (run_session (cs1 ++ cs2) fresh_kernel) c) = Finished.
Proof.
  intros Hfin. rewrite run_session_app. unfold run_cell in *.
  apply (run_ops_finishes_mono _ (run_session cs1 fresh_kernel)); [|exact Hfin].
  intros x Hx. now apply run_session_keeps_bound.
Qed.

(** ** Concrete runs of the further properties *)

(** [MaskedConv2d(1, 1, 3, padding=1, mask_type='A')]. *)
Definition layer_A_3x3 : MaskedConv2d Z :=
  match MaskedConv2d_init Z 1 1 (3, 3) (1, 1) "A" ones_w zero_b with
  | Ok L => L
  | _ => {| conv := Conv2d_init Z 0 0 (0, 0) (0, 0) ones_w zero_b; mask := [] |}
  end.


(** An optimizer step that leaves every parameter as it is. *)
Definition no_update : nat -> Update R :=
  fun _ => {| upd_weight := fun _ _ _ _ v => v; upd_bias := fun _ v => v |}.

Example forward_A_3x3 :
  snd (MaskedConv2d_forward Z layer_A_3x3 grid_a) =
  [[[[0; 1; 2]; [3; 10; 10]; [9; 22; 19]]]]%Z.
Proof. reflexivity. Qed.




Lemma split_of_short_images_witness :
  fst (split_top_bottom Z grid_a) = grid_a /\
  snd (split_top_bottom Z grid_a) = map4 Z (fun _ => 0%Z) grid_a.
Proof.
  refine (split_of_short_images Z grid_a _).
  repeat constructor; simpl; lia.
Defined.

Lemma mask_keeps_count_witness :
  @big_sum Z Z_Scalar 3 (fun i =>
    @big_sum Z Z_Scalar 3 (fun j => get4 Z (mask Z layer_B_3x3) 0 0 i j)) =
  Z.of_nat (3 / 2 * 3 + Nat.min 3 (3 / 2 + is_B "B")).
Proof.
  refine (mask_keeps_count 1 1 3 3 (1, 1) "B" ones_w zero_b layer_B_3x3 0 0 _ _ _).
  - reflexivity.
  - lia.
  - lia.
Defined.

Lemma PixelCNN_init_structure_witness :
  exists model,
    PixelCNN_init R 1 64 7 6 (fun _ _ _ _ _ => 1%R) (fun _ _ => 0%R) = Ok model /\
    length model = 2 * (6 - 2) + 3 /\
    length (net_masks R model) = S (6 - 2) /\
    length (filter (is_conv R) model) = Nat.max 6 2.
Proof.
  refine (PixelCNN_init_structure R 1 64 7 6 (fun _ _ _ _ _ => 1%R) (fun _ _ => 0%R) _).
  lia.
Defined.


Lemma network_forward_repeatable_witness :
  PixelCNN_forward R
    (fst (PixelCNN_forward R (run_events R default_model []) half_white_batch))
    blank_batch =
  PixelCNN_forward R (run_events R default_model []) blank_batch.
Proof.
  refine (network_forward_repeatable R 1 64 7 6
            (fun _ _ _ _ _ => 1%R) (fun _ _ => 0%R)
            default_model [] half_white_batch blank_batch _).
  reflexivity.
Defined.

Lemma network_output_shape_witness :
  forallb (layers_accept R (run_events R default_model [])) blank_batch = true /\
  shape4 R (snd (PixelCNN_forward R (run_events R default_model []) blank_batch)) =
  repeat (rect 1 (28 + S (6 - 2) * growth 7) (28 + S (6 - 2) * growth 7))
         (length blank_batch).
Proof.
  refine (network_output_shape R 1 64 7 6
            (fun _ _ _ _ _ => 1%R) (fun _ _ => 0%R)
            default_model [] blank_batch 28 28 _ _ _ _ _ _).
  - reflexivity.
  - lia.
  - lia.
  - lia.
  - lia.
  - repeat constructor.
Defined.

Lemma completion_ignores_bottom_rows_witness :
  complete_batch R default_model blank_batch =
  complete_batch R default_model half_white_batch.
Proof.
  refine (completion_ignores_bottom_rows R default_model blank_batch half_white_batch
            _ _).
  - reflexivity.
  - intros n ch r c Hr.
    destruct n as [|n]; [|reflexivity]. destruct ch as [|ch]; [|reflexivity].
    do 14 (destruct r as [|r]; [reflexivity|]). lia.
Defined.

Lemma completed_images_shape_witness :
  exists model' completed_images,
    complete_batch R (run_events R default_model []) blank_batch =
      Some (model', completed_images) /\
    shape4 R completed_images = shape4 R blank_batch.
Proof.
  refine (completed_images_shape R 1 64 7 6
            (fun _ _ _ _ _ => 1%R) (fun _ _ => 0%R)
            default_model [] blank_batch 28 28 _ _ _ _ _ _ _).
  - reflexivity.
  - reflexivity.
  - lia.
  - lia.
  - lia.
  - lia.
  - repeat constructor.
Defined.

Lemma cell_success_is_stable_witness :
  snd (run_cell
         (run_session ([Imports; Classes; Data; Split; Train] ++ [Save; Inference; Split])
            fresh_kernel) Inference) = Finished.
Proof.
  refine (cell_success_is_stable [Imports; Classes; Data; Split; Train]
            [Save; Inference; Split] Inference _).
  reflexivity.
Defined.

(** * Runs on floats *)

(** The notebook's tensors hold binary32 floats.  The primitive floats
    used here are binary64: the same IEEE arithmetic with a wider exponent
    range, so a product that overflows at 2^128 there overflows at 2^1024
    here.  Floats are a [Scalar] but not [Exact]. *)
#[export] Instance F_Scalar : Scalar float := {|
  zero := 0%float; one := 1%float; add := PrimFloat.add; mul := PrimFloat.mul
|}.

(** [nn.ReLU] on a float: negative values become 0, NaN stays NaN. *)
Definition Frelu (x : float) : float := if (x <? 0)%float then 0%float else x.

(** e^y is not among the primitive float operations.  It is taken here as
    (1 + |y| / 1024)^1024, by ten squarings, inverted for negative y: this
    is 1 at 0, infinite on large arguments and NaN on NaN, which are the
    only values the runs below depend on; elsewhere it is an
    approximation. *)
Definition Fsquare (z : float) : float := (z * z)%float.

Definition Fexp (y : float) : float :=
  let p := Fsquare (Fsquare (Fsquare (Fsquare (Fsquare (Fsquare (Fsquare
             (Fsquare (Fsquare (Fsquare (1 + abs y / 1024)%float))))))))) in
  if (y <? 0)%float then (1 / p)%float else p.

(** [torch.sigmoid] on a float: 1 / (1 + e^(-x)). *)
Definition Fsigmoid (x : float) : float := (1 / (1 + Fexp (- x)))%float.

#[export] Instance F_Activations : Activations float := {|
  relu := Frelu; sigmoid := Fsigmoid
|}.

(** [PixelCNN(input_channels=1, hidden_channels=1, kernel_size=3,
    num_layers=3)] with every weight 2 and every bias 0. *)
Definition float_model : PixelCNN float :=
  match PixelCNN_init float 1 1 3 3 (fun _ _ _ _ _ => 2%float) (fun _ _ => 0%float) with
  | Ok m => m
  | _ => []
  end.

(** 2^1023, a finite float; twice it is infinite. *)
Definition huge : float := 0x1p1023%float.

(** 3x3 images of one channel: a blank one, one with a huge last-row
    pixel, one with a huge first pixel. *)
Definition float_blank : Tensor4 float :=
  [[[[0; 0; 0]; [0; 0; 0]; [0; 0; 0]]]]%float.
Definition float_huge_later : Tensor4 float :=
  [[[[0; 0; 0]; [0; 0; 0]; [0; huge; 0]]]]%float.

(** What the stand-in for the sigmoid gives at the values used below, and
    where it saturates. *)
Example float_sigmoid_values :
  Fsigmoid 0 = 0.5%float /\
  PrimFloat.is_nan (Fsigmoid nan) = true /\
  Fsigmoid (-10000) = 0%float /\
  Fsigmoid 10000 = 1%float.
Proof. repeat split; vm_compute; reflexivity. Qed.

(** A finite value that a weight of 2 takes to infinity, and the NaN a
    zero weight then makes of it: [mul zero x = zero] fails on floats. *)
Example float_zero_times_overflow :
  (huge <? infinity)%float = true /\
  mul 2%float huge = infinity /\
  PrimFloat.is_nan (mul zero (mul 2%float huge)) = true /\
  mul zero (mul 2%float huge) <> zero.
Proof.
  repeat split; try (vm_compute; reflexivity).
  intros E. apply (f_equal PrimFloat.is_nan) in E. vm_compute in E. discriminate.
Qed.

(** C1, counterexample.  On floats the claim as stated fails.  The blank
    3x3 image and the image with a huge pixel at (2, 1) agree at every
    position strictly before (1, 1), yet the network gives 0.5 at (1, 1)
    for the first and NaN for the second: the first layer's output at
    (2, 2) overflows to infinity, and the second layer's weight for that
    position, masked to zero, multiplies it to NaN. *)
Lemma pixelcnn_autoregressive_fails_on_floats :
  PixelCNN_init float 1 1 3 3 (fun _ _ _ _ _ => 2%float) (fun _ _ => 0%float)
    = Ok float_model /\
  length float_blank = length float_huge_later /\
  shape3 float (nth 0 float_blank []) = shape3 float (nth 0 float_huge_later []) /\
  (forall ch i j, i < 1 \/ (i = 1 /\ j < 1) ->
     get4 float float_blank 0 ch i j = get4 float float_huge_later 0 ch i j) /\
  get4 float (snd (PixelCNN_forward float (run_events float float_model [])
                     float_blank)) 0 0 1 1 = 0.5%float /\
  PrimFloat.is_nan
    (get4 float (snd (PixelCNN_forward float (run_events float float_model [])
                        float_huge_later)) 0 0 1 1) = true /\
  get4 float (snd (PixelCNN_forward float (run_events float float_model [])
                     float_blank)) 0 0 1 1 <>
  get4 float (snd (PixelCNN_forward float (run_events float float_model [])
                     float_huge_later)) 0 0 1 1.
Proof.
  split; [reflexivity|]. split; [reflexivity|]. split; [reflexivity|].
  split; [|split; [vm_compute; reflexivity|split; [vm_compute; reflexivity|]]].
  - intros ch i j Hij. destruct ch as [|ch]; [|reflexivity].
    destruct i as [|[|i]]; [reflexivity | | lia].
    destruct j as [|j]; [reflexivity | lia].
  - intros E. apply (f_equal PrimFloat.is_nan) in E. vm_compute in E. discriminate.
Qed.


(** ** The exceptions of the inference routine *)

(** [PixelCNN(1, 1, 2, 3)]: an even kernel size, every weight 2 and every
    bias 0. *)
Definition float_model_even : PixelCNN float :=
  match PixelCNN_init float 1 1 2 3 (fun _ _ _ _ _ => 2%float) (fun _ _ => 0%float) with
  | Ok m => m
  | _ => []
  end.

(** With an even kernel the prediction for a 3x3 image is 5x5 and the
    addition to the given half raises RuntimeError; a batch of one image
    raises IndexError in the display loop at the default five columns;
    zero columns are a ValueError; an empty loader shows nothing. *)
Example complete_images_exceptions :
  shape3 float (nth 0 (snd (PixelCNN_forward float float_model_even float_blank)) [])
    = [[5; 5; 5; 5; 5]] /\
  complete_batch float float_model_even float_blank = None /\
  complete_images float float_model_even [float_blank] 5 = RaisesRuntimeError float /\
  complete_images float float_model [float_blank] 5 = RaisesIndexError float /\
  complete_images float float_model [float_blank] 0 = RaisesValueError float /\
  complete_images float float_model [] 5 = NotShown float.
Proof. repeat split; vm_compute; reflexivity. Qed.

(** ** The completion on floats *)

(** On floats as over the real numbers: for a batch of five blank 3x3
    images (every row is a given row) the routine shows five columns whose
    completed image holds 0.5 at every pixel, where the original and the
    given half hold 0. *)
Example completion_shifts_given_rows_on_floats :
  match complete_images float float_model (repeat (nth 0 float_blank []) 5 :: nil) 5 with
  | Shown _ _ columns =>
      columns =
      repeat (nth 0 float_blank [], nth 0 float_blank [],
              [[[0.5; 0.5; 0.5]; [0.5; 0.5; 0.5]; [0.5; 0.5; 0.5]]]%float) 5
  | _ => False
  end.
Proof. vm_compute. reflexivity. Qed.
